(** * heic_handler.js: HEIC detection, conversion boundary and EXIF sanitizer

    A shallow embedding of [dist/snippets/.../js/heic_handler.js].

    - JavaScript strings are sequences of code units; here a code unit is an
      8-bit character (the Latin-1 range U+0000..U+00FF), on which
      [toLowerCase] and [endsWith] are written out as ECMAScript defines them.
    - JavaScript values are a tree datatype ([value]); a number is an IEEE-754
      datum ([spec_float]): signed zeros, finite values, infinities and NaN.
      The trees are finite (no cycles) and hold data only: no accessors and
      no object with a [toJSON] method.
    - The text produced by [JSON.stringify] is kept as its parse tree
      ([json]); [JSON.stringify] follows SerializeJSONProperty /
      SerializeJSONObject / SerializeJSONArray, [JSON.parse] follows
      InternalizeJSONProperty without reviver.
    - [async]/[await], [try]/[catch] and the console are an error monad over
      a trace of events.  Every awaited promise is taken to settle (fulfilled
      or rejected). *)

From Stdlib Require Import List String Ascii Bool Arith NArith ZArith Lia.
From Stdlib Require Import Floats.SpecFloat.
From Stdlib Require Import Numbers.DecimalString.
From Stdlib Require Numbers.DecimalNat.
From Stdlib Require Init.Byte.
Import ListNotations.

Local Open Scope string_scope.
Local Open Scope list_scope.

Set Warnings "-register-all".

(* ================================================================= *)
(** ** Strings *)

Module JSString.

(** Code units whose default Unicode lower-case mapping differs from
    themselves, within U+0000..U+00FF: A..Z, and U+00C0..U+00DE except the
    multiplication sign U+00D7.  The mapping adds 32. *)
Definition has_lowercase (n : N) : bool :=
  ((65 <=? n) && (n <=? 90) || (192 <=? n) && (n <=? 222) && negb (n =? 215))%N.

Definition lower_unit (c : ascii) : ascii :=
  let n := N_of_ascii c in
  if has_lowercase n then ascii_of_N (n + 32) else c.

(** [String.prototype.toLowerCase] *)
Fixpoint toLowerCase (s : string) : string :=
  match s with
  | EmptyString => EmptyString
  | String c r => String (lower_unit c) (toLowerCase r)
  end.

(** [String.prototype.endsWith (searchString)], with [endPosition]
    undefined: [start = len - searchLength]; a negative [start] answers
    [false]; otherwise the code units from [start] are compared. *)
Definition endsWith (str searchString : string) : bool :=
  let len := String.length str in
  let searchLength := String.length searchString in
  if Nat.ltb len searchLength then false
  else String.eqb (substring (len - searchLength) searchLength str) searchString.

(** [ToString] of an array index. *)
Definition index_key (i : nat) : string :=
  NilEmpty.string_of_uint (Nat.to_uint i).

End JSString.

Import JSString.

(* ================================================================= *)
(** ** Completions: a value or a thrown exception *)

Inductive exn : Type :=
| TypeError (msg : string)
| SyntaxError (msg : string)
| RangeError (msg : string)
| HostError (msg : string).

Inductive completion (A : Type) : Type :=
| Normal (a : A)
| Throw (e : exn).

Arguments Normal {A} a.
Arguments Throw {A} e.

(* ================================================================= *)
(** ** JavaScript values *)

(** A Number value. *)
Definition number : Type := spec_float.

Definition is_finite (x : number) : bool :=
  match x with
  | S754_zero _ | S754_finite _ _ _ => true
  | S754_infinity _ | S754_nan => false
  end.

(** The Number denoted by the decimal literal that [Number::toString]
    writes for a finite [x]: the literal reads back as [x] itself, except
    that negative zero is written [0]. *)
Definition number_literal (x : number) : number :=
  match x with
  | S754_zero _ => S754_zero false
  | _ => x
  end.

Definition number_of_Z (z : Z) : number :=
  match z with
  | Z0 => S754_zero false
  | Zpos p => S754_finite false p 0
  | Zneg p => S754_finite true p 0
  end.

(** The typed-array constructors with Number elements, and those with
    BigInt elements. *)
Inductive NumberArrayConstructor : Type :=
| Int8Array | Uint8Array | Uint8ClampedArray
| Int16Array | Uint16Array
| Int32Array | Uint32Array
| Float16Array | Float32Array | Float64Array.

Inductive BigIntArrayConstructor : Type :=
| BigInt64Array | BigUint64Array.

Definition NumberArrayConstructor_eq_dec
  (a b : NumberArrayConstructor) : {a = b} + {a <> b}.
Proof. decide equality. Defined.

(** Values.  An object is the list of its own enumerable string-keyed
    properties in the order in which the engine enumerates them; an array is
    the list of its elements (a hole reads as [undefined]); a typed array is
    its constructor and its elements. *)
Inductive value : Type :=
| VUndefined
| VNull
| VBool (b : bool)
| VNumber (x : number)
| VBigInt (z : Z)
| VString (s : string)
| VTypedArray (c : NumberArrayConstructor) (elems : list number)
| VBigIntArray (c : BigIntArrayConstructor) (elems : list Z)
| VArray (elems : list value)
| VObject (props : list (string * value)).

(** [value instanceof C] for a typed-array constructor [C]. *)
Definition instanceof (v : value) (C : NumberArrayConstructor) : bool :=
  match v with
  | VTypedArray c _ => if NumberArrayConstructor_eq_dec c C then true else false
  | _ => false
  end.

(** [Array.from (value)] on the iterables of the model: one entry per
    element, in order.  (It is reached for typed arrays only; a value that
    is neither an array nor a typed array is given no entries.) *)
Definition Array_from (v : value) : value :=
  match v with
  | VTypedArray _ xs => VArray (map VNumber xs)
  | VBigIntArray _ zs => VArray (map VBigInt zs)
  | VArray l => VArray l
  | _ => VArray []
  end.

(** [ToBoolean] *)
Definition ToBoolean (v : value) : bool :=
  match v with
  | VUndefined | VNull => false
  | VBool b => b
  | VNumber x =>
      match x with
      | S754_zero _ | S754_nan => false
      | _ => true
      end
  | VBigInt z => negb (Z.eqb z 0)
  | VString s => negb (String.eqb s "")
  | _ => true
  end.

(** The integer-indexed properties of an array-like: keys ["0"], ["1"], ... *)
Fixpoint indexed_from {A : Type} (i : nat) (l : list A) : list (string * A) :=
  match l with
  | [] => []
  | x :: r => (index_key i, x) :: indexed_from (S i) r
  end.

Definition indexed {A : Type} (l : list A) : list (string * A) :=
  indexed_from 0 l.

(** Nesting depth: the number of object levels under a value. *)
Fixpoint depth (v : value) : nat :=
  match v with
  | VArray l => S (list_max (map depth l))
  | VObject ps => S (list_max (map (fun p => depth (snd p)) ps))
  | VTypedArray _ _ | VBigIntArray _ _ => 1
  | _ => 0
  end.

(* ================================================================= *)
(** ** JSON text, as its parse tree *)

Inductive json : Type :=
| JNull
| JBool (b : bool)
| JNumber (x : number)
| JString (s : string)
| JArray (elems : list json)
| JObject (members : list (string * json)).

(** Evaluation with a recursion budget: [None] when the budget is spent. *)
Definition eval (A : Type) : Type := option (completion A).

Definition eval_ret {A} (a : A) : eval A := Some (Normal a).
Definition eval_throw {A} (e : exn) : eval A := Some (Throw e).

Definition eval_bind {A B} (m : eval A) (k : A -> eval B) : eval B :=
  match m with
  | None => None
  | Some (Throw e) => Some (Throw e)
  | Some (Normal a) => k a
  end.

Declare Scope eval_scope.
Delimit Scope eval_scope with eval.
Notation "x <- m ;; k" := (eval_bind m (fun x => k))
  (at level 61, m at next level, right associativity) : eval_scope.

Section Stringify.

(** The replacer function passed to [JSON.stringify]. *)
Variable ReplacerFunction : string -> value -> value.

Section Composite.
(** SerializeJSONProperty at the next level. *)
Variable Property : string -> value -> eval (option json).

(** SerializeJSONObject: every key of [K] in order; a property whose
    serialization is undefined is left out. *)
Fixpoint SerializeJSONObject (K : list (string * value))
  : eval (list (string * json)) :=
  match K with
  | [] => eval_ret []
  | (P, v) :: rest =>
      (strP <- Property P v ;;
       partial <- SerializeJSONObject rest ;;
       eval_ret match strP with
                | None => partial
                | Some member => (P, member) :: partial
                end)%eval
  end.

(** SerializeJSONArray: every index in order; an element whose
    serialization is undefined is written [null]. *)
Fixpoint SerializeJSONArray (index : nat) (elems : list value)
  : eval (list json) :=
  match elems with
  | [] => eval_ret []
  | v :: rest =>
      (strP <- Property (index_key index) v ;;
       partial <- SerializeJSONArray (S index) rest ;;
       eval_ret match strP with
                | None => JNull :: partial
                | Some element => element :: partial
                end)%eval
  end.
End Composite.

(** SerializeJSONProperty (key, holder), given [holder[key]]. *)
Fixpoint SerializeJSONProperty (fuel : nat) (key : string) (held : value)
  : eval (option json) :=
  match fuel with
  | O => None
  | S fuel' =>
      match ReplacerFunction key held with
      | VNull => eval_ret (Some JNull)
      | VBool b => eval_ret (Some (JBool b))
      | VString s => eval_ret (Some (JString s))
      | VNumber x =>
          if is_finite x then eval_ret (Some (JNumber (number_literal x)))
          else eval_ret (Some JNull)
      | VBigInt _ =>
          eval_throw (TypeError "Do not know how to serialize a BigInt")
      | VArray elems =>
          (l <- SerializeJSONArray (SerializeJSONProperty fuel') 0 elems ;;
           eval_ret (Some (JArray l)))%eval
      | VObject props =>
          (l <- SerializeJSONObject (SerializeJSONProperty fuel') props ;;
           eval_ret (Some (JObject l)))%eval
      | VTypedArray _ xs =>
          (l <- SerializeJSONObject (SerializeJSONProperty fuel')
                  (indexed (map VNumber xs)) ;;
           eval_ret (Some (JObject l)))%eval
      | VBigIntArray _ zs =>
          (l <- SerializeJSONObject (SerializeJSONProperty fuel')
                  (indexed (map VBigInt zs)) ;;
           eval_ret (Some (JObject l)))%eval
      | VUndefined => eval_ret None
      end
  end.

(** [JSON.stringify (value, replacer)]: the property [""] of a wrapper
    holding [value]. *)
Definition JSON_stringify (fuel : nat) (v : value) : eval (option json) :=
  SerializeJSONProperty fuel "" v.

End Stringify.

(** CreateDataProperty on a property list: an existing key keeps its place
    and takes the new value, a new key goes last. *)
Fixpoint CreateDataProperty (O : list (string * value)) (P : string) (V : value)
  : list (string * value) :=
  match O with
  | [] => [(P, V)]
  | (k, v) :: rest =>
      if String.eqb k P then (k, V) :: rest
      else (k, v) :: CreateDataProperty rest P V
  end.

(** The value a JSON text denotes (no reviver). *)
Fixpoint json_value (j : json) : value :=
  match j with
  | JNull => VNull
  | JBool b => VBool b
  | JNumber x => VNumber x
  | JString s => VString s
  | JArray elems => VArray (map json_value elems)
  | JObject members =>
      VObject (fold_left
                 (fun O m => CreateDataProperty O (fst m) (json_value (snd m)))
                 members [])
  end.

(** [JSON.parse (text)].  An [undefined] argument is first converted to the
    string [undefined], which is not a JSON text. *)
Definition JSON_parse (text : option json) : completion value :=
  match text with
  | None => Throw (SyntaxError "undefined is not valid JSON")
  | Some j => Normal (json_value j)
  end.

(* ================================================================= *)
(** ** sanitizeExif *)

(** The arrow function [replacer] of [sanitizeExif]. *)
Definition replacer (_ : string) (val : value) : value :=
  if instanceof val Uint8Array ||
     instanceof val Uint16Array ||
     instanceof val Uint32Array ||
     instanceof val Int8Array ||
     instanceof val Int16Array ||
     instanceof val Int32Array ||
     instanceof val Float32Array ||
     instanceof val Float64Array
  then Array_from val
  else val.

(** [JSON.parse (JSON.stringify (obj, replacer))] under a recursion budget. *)
Definition sanitizeExif_within (fuel : nat) (obj : value) : eval value :=
  match JSON_stringify replacer fuel obj with
  | None => None
  | Some (Throw e) => Some (Throw e)
  | Some (Normal text) => Some (JSON_parse text)
  end.

(** [sanitizeExif (obj)].  The budget [S (depth obj)] is never spent, and
    every larger budget gives the same completion
    ([sanitizeExif_within_enough]). *)
Definition sanitizeExif (obj : value) : completion value :=
  match sanitizeExif_within (S (depth obj)) obj with
  | Some c => c
  | None => Throw (RangeError "Maximum call stack size exceeded")
  end.

(* ================================================================= *)
(** ** The host: files, blobs, external libraries, console *)

Definition bytes : Type := list Byte.byte.

(** A Blob: what awaiting its [arrayBuffer()] gives. *)
Record Blob : Type := { arrayBuffer : completion bytes }.

(** A File is a Blob with a name and a declared MIME type. *)
Record File : Type := {
  name : string;
  type : string;
  asBlob : Blob
}.

Record ParseOptions : Type := { translateValues : bool }.
Record Heic2anyOptions : Type := { blob : File; toType : string }.

(** The two external libraries: what awaiting each call gives. *)
Record Host : Type := {
  exifr_parse : File -> ParseOptions -> completion value;
  heic2any : Heic2anyOptions -> completion Blob
}.

(** What an invocation does to the outside, in order.  The further
    arguments of the console calls are not recorded. *)
Inductive event : Type :=
| console_log (label : string)
| console_warn (label : string)
| console_error (label : string)
| console_time (label : string)
| console_timeEnd (label : string)
| read_arrayBuffer
| call_exifr_parse (options : ParseOptions)
| call_heic2any (toType : string).

(** The conversion result. *)
Record Conversion : Type := {
  jpeg : bytes;
  exif : value
}.

(** Computations of an async function body: a completion and the trace
    extended by the events performed. *)
Definition Async (A : Type) : Type := list event -> completion A * list event.

Definition ret {A} (a : A) : Async A := fun tr => (Normal a, tr).

Definition bind {A B} (m : Async A) (k : A -> Async B) : Async B :=
  fun tr =>
    match m tr with
    | (Normal a, tr') => k a tr'
    | (Throw e, tr') => (Throw e, tr')
    end.

(** [try { body } catch (err) { handler }] *)
Definition try_catch {A} (body : Async A) (handler : exn -> Async A) : Async A :=
  fun tr =>
    match body tr with
    | (Normal a, tr') => (Normal a, tr')
    | (Throw err, tr') => handler err tr'
    end.

Definition emit (ev : event) : Async unit := fun tr => (Normal tt, tr ++ [ev]).

(** [await] of an external call: the call is recorded, then its completion
    is the completion of the [await]. *)
Definition await {A} (ev : event) (c : completion A) : Async A :=
  fun tr => (c, tr ++ [ev]).

(** A synchronous call that may throw. *)
Definition lift {A} (c : completion A) : Async A := fun tr => (c, tr).

Declare Scope async_scope.
Delimit Scope async_scope with async.
Notation "x <- m ;; k" := (bind m (fun x => k))
  (at level 61, m at next level, right associativity) : async_scope.
Notation "m ;; k" := (bind m (fun _ => k))
  (at level 61, right associativity) : async_scope.

(** [new Uint8Array (buffer)] over a whole ArrayBuffer: the same bytes. *)
Definition Uint8Array_of (buffer : bytes) : bytes := buffer.

(* ================================================================= *)
(** ** ensureJpegBytes *)

(** [const isHeic = (file.type === "image/heic" ||
                     file.name.toLowerCase().endsWith(".heic"))] *)
Definition isHeic (file : File) : bool :=
  String.eqb (type file) "image/heic" ||
  endsWith (toLowerCase (name file)) ".heic".

(** The result of the [catch] block. *)
Definition degraded : Conversion := {| jpeg := Uint8Array_of []; exif := VObject [] |}.

Section EnsureJpegBytes.

Variable host : Host.

(** The body of the [try] block. *)
Definition ensureJpegBytes_try (file : File) : Async Conversion :=
  (emit (console_log "[Start] ensureJpegBytes for:") ;;
   if negb (isHeic file) then
     emit (console_log "[Info] JPEG detected, skipping conversion.") ;;
     buffer <- await read_arrayBuffer (arrayBuffer (asBlob file)) ;;
     ret {| jpeg := Uint8Array_of buffer; exif := VObject [] |}
   else
     emit (console_time "exifr.parse") ;;
     exifObj <- await (call_exifr_parse {| translateValues := false |})
                  (exifr_parse host file {| translateValues := false |}) ;;
     emit (console_timeEnd "exifr.parse") ;;
     (if negb (ToBoolean exifObj)
      then emit (console_warn "[Warn] Exif data could not be parsed from HEIC.")
      else emit (console_log "[Info] Exif keys:")) ;;
     emit (console_time "heic2any") ;;
     jpegBlob <- await (call_heic2any "image/jpeg")
                   (heic2any host {| blob := file; toType := "image/jpeg" |}) ;;
     emit (console_timeEnd "heic2any") ;;
     emit (console_log "[Info] JPEG blob size:") ;;
     buffer <- await read_arrayBuffer (arrayBuffer jpegBlob) ;;
     let finalBytes := Uint8Array_of buffer in
     exifValue <- lift (sanitizeExif exifObj) ;;
     ret {| jpeg := finalBytes; exif := exifValue |})%async.

(** [async function ensureJpegBytes (file)] *)
Definition ensureJpegBytes (file : File) : Async Conversion :=
  try_catch (ensureJpegBytes_try file)
    (fun err =>
       (emit (console_error "[Error] Failed in ensureJpegBytes:") ;;
        ret degraded)%async).

End EnsureJpegBytes.

(* ================================================================= *)
(** ** Definitions used by the statements *)

Definition completion_bind {A B} (c : completion A) (k : A -> completion B)
  : completion B :=
  match c with
  | Normal a => k a
  | Throw e => Throw e
  end.

(** The eight constructors named by the replacer. *)
Definition handled (c : NumberArrayConstructor) : bool :=
  match c with
  | Uint8Array | Uint16Array | Uint32Array
  | Int8Array | Int16Array | Int32Array
  | Float32Array | Float64Array => true
  | Uint8ClampedArray | Float16Array => false
  end.

Definition NumberArrayConstructors : list NumberArrayConstructor :=
  [Int8Array; Uint8Array; Uint8ClampedArray; Int16Array; Uint16Array;
   Int32Array; Uint32Array; Float16Array; Float32Array; Float64Array].

(** A Number that a JSON text written by [JSON.stringify] can denote:
    finite, and not negative zero. *)
Definition json_number (x : number) : bool :=
  match x with
  | S754_zero s => negb s
  | S754_finite _ _ _ => true
  | S754_infinity _ | S754_nan => false
  end.

(** What [JSON.stringify] writes for a Number. *)
Definition number_text (x : number) : json :=
  if is_finite x then JNumber (number_literal x) else JNull.

(** The serialization steps of an array and of an object, over the
    completions of their parts taken in order. *)
Fixpoint array_text (parts : list (completion (option json)))
  : completion (list json) :=
  match parts with
  | [] => Normal []
  | c :: rest =>
      completion_bind c (fun strP =>
      completion_bind (array_text rest) (fun partial =>
      Normal match strP with
             | None => JNull :: partial
             | Some element => element :: partial
             end))
  end.

Fixpoint object_text (parts : list (string * completion (option json)))
  : completion (list (string * json)) :=
  match parts with
  | [] => Normal []
  | (P, c) :: rest =>
      completion_bind c (fun strP =>
      completion_bind (object_text rest) (fun partial =>
      Normal match strP with
             | None => partial
             | Some member => (P, member) :: partial
             end))
  end.

(** [JSON.stringify (v, replacer)] in closed form, by recursion on the
    value: the budgeted algorithm run with the replacer of [sanitizeExif]
    computes it ([SerializeJSONProperty_serialize]). *)
Fixpoint serialize (v : value) : completion (option json) :=
  match v with
  | VUndefined => Normal None
  | VNull => Normal (Some JNull)
  | VBool b => Normal (Some (JBool b))
  | VNumber x => Normal (Some (number_text x))
  | VBigInt _ => Throw (TypeError "Do not know how to serialize a BigInt")
  | VString s => Normal (Some (JString s))
  | VTypedArray c xs =>
      if handled c then Normal (Some (JArray (map number_text xs)))
      else Normal (Some (JObject (indexed (map number_text xs))))
  | VBigIntArray _ zs =>
      match zs with
      | [] => Normal (Some (JObject []))
      | _ :: _ => Throw (TypeError "Do not know how to serialize a BigInt")
      end
  | VArray l =>
      completion_bind (array_text (map serialize l))
        (fun t => Normal (Some (JArray t)))
  | VObject ps =>
      completion_bind
        (object_text (map (fun p => (fst p, serialize (snd p))) ps))
        (fun t => Normal (Some (JObject t)))
  end.

(** Keys that are pairwise different. *)
Fixpoint distinct (keys : list string) : bool :=
  match keys with
  | [] => true
  | k :: rest => negb (existsb (String.eqb k) rest) && distinct rest
  end.

(** Values that a JSON text denotes: null, booleans, strings, JSON numbers,
    arrays and objects of such. *)
Fixpoint plain (v : value) : bool :=
  match v with
  | VNull | VBool _ | VString _ => true
  | VNumber x => json_number x
  | VArray l => forallb plain l
  | VObject ps => distinct (map fst ps) && forallb (fun p => plain (snd p)) ps
  | VUndefined | VBigInt _ | VTypedArray _ _ | VBigIntArray _ _ => false
  end.

Fixpoint canonical (j : json) : bool :=
  match j with
  | JNull | JBool _ | JString _ => true
  | JNumber x => json_number x
  | JArray l => forallb canonical l
  | JObject ms => forallb (fun m => canonical (snd m)) ms
  end.

(** Trees made of plain values and of buffers of the eight handled kinds
    whose elements are JSON numbers. *)
Fixpoint representable (v : value) : bool :=
  match v with
  | VNull | VBool _ | VString _ => true
  | VNumber x => json_number x
  | VTypedArray c xs => handled c && forallb json_number xs
  | VArray l => forallb representable l
  | VObject ps =>
      distinct (map fst ps) && forallb (fun p => representable (snd p)) ps
  | VUndefined | VBigInt _ | VBigIntArray _ _ => false
  end.

(** The sanitizer as the specification words it: every buffer of a handled
    kind, at any depth, becomes the plain sequence of its elements in order;
    the rest of the tree is kept. *)
Fixpoint replaceBuffers (v : value) : value :=
  match v with
  | VTypedArray c xs => if handled c then VArray (map VNumber xs) else v
  | VArray l => VArray (map replaceBuffers l)
  | VObject ps => VObject (map (fun p => (fst p, replaceBuffers (snd p))) ps)
  | _ => v
  end.

(** [contains p v]: some value of the tree [v], at any depth, satisfies [p]. *)
Fixpoint contains (p : value -> bool) (v : value) : bool :=
  p v ||
  match v with
  | VArray l => existsb (contains p) l
  | VObject ps => existsb (fun q => contains p (snd q)) ps
  | _ => false
  end.

Definition is_nonfinite_number (v : value) : bool :=
  match v with
  | VNumber x => negb (is_finite x)
  | VTypedArray c xs => existsb (fun x => negb (is_finite x)) xs
  | _ => false
  end.

Definition is_bigint_buffer (v : value) : bool :=
  match v with
  | VBigIntArray _ _ => true
  | _ => false
  end.

Definition is_nonempty_bigint_buffer (v : value) : bool :=
  match v with
  | VBigIntArray _ (_ :: _) => true
  | _ => false
  end.

(** A BigInt reached by the serialization: a BigInt value, or an element of
    a BigInt buffer. *)
Definition holds_bigint (v : value) : bool :=
  match v with
  | VBigInt _ => true
  | VBigIntArray _ (_ :: _) => true
  | _ => false
  end.

Definition default_options : ParseOptions := {| translateValues := false |}.

Definition jpeg_request (file : File) : Heic2anyOptions :=
  {| blob := file; toType := "image/jpeg" |}.

(** A step of the operation fails: the byte read of the passthrough path,
    or, on the HEIC path, metadata extraction, transcoding, the byte read of
    the transcoded blob, or sanitization. *)
Inductive step_fails (host : Host) (file : File) : Prop :=
| passthrough_read_fails e :
    isHeic file = false ->
    arrayBuffer (asBlob file) = Throw e ->
    step_fails host file
| extraction_fails e :
    isHeic file = true ->
    exifr_parse host file default_options = Throw e ->
    step_fails host file
| transcoding_fails e :
    isHeic file = true ->
    heic2any host (jpeg_request file) = Throw e ->
    step_fails host file
| transcoded_read_fails jpegBlob e :
    isHeic file = true ->
    heic2any host (jpeg_request file) = Normal jpegBlob ->
    arrayBuffer jpegBlob = Throw e ->
    step_fails host file
| sanitization_fails exifObj e :
    isHeic file = true ->
    exifr_parse host file default_options = Normal exifObj ->
    sanitizeExif exifObj = Throw e ->
    step_fails host file.

(** The events of the HEIC path up to the call of the metadata parser, and
    from there to the call of the transcoder. *)
Definition extraction_events : list event :=
  [console_log "[Start] ensureJpegBytes for:";
   console_time "exifr.parse";
   call_exifr_parse default_options].

Definition passthrough_events : list event :=
  [console_log "[Start] ensureJpegBytes for:";
   console_log "[Info] JPEG detected, skipping conversion.";
   read_arrayBuffer].

Definition is_library_call (ev : event) : bool :=
  match ev with
  | call_exifr_parse _ | call_heic2any _ => true
  | _ => false
  end.

Definition is_warning (ev : event) : bool :=
  match ev with
  | console_warn _ => true
  | _ => false
  end.

Definition failure_logged : event :=
  console_error "[Error] Failed in ensureJpegBytes:".

Definition extraction_report (exifObj : value) : event :=
  if ToBoolean exifObj
  then console_log "[Info] Exif keys:"
  else console_warn "[Warn] Exif data could not be parsed from HEIC.".

Definition transcoding_events (exifObj : value) : list event :=
  [console_timeEnd "exifr.parse"; extraction_report exifObj;
   console_time "heic2any"; call_heic2any "image/jpeg"].

Definition transcoded_read_events : list event :=
  [console_timeEnd "heic2any"; console_log "[Info] JPEG blob size:";
   read_arrayBuffer].

(** Sample hosts and files. *)
Definition no_library : Host :=
  {| exifr_parse := fun _ _ => Throw (HostError "unused");
     heic2any := fun _ => Throw (HostError "unused") |}.

Definition jpeg_magic : bytes := [Byte.xff; Byte.xd8; Byte.xff].

Definition holiday_jpg : File :=
  {| name := "holiday.jpg"; type := "image/jpeg";
     asBlob := {| arrayBuffer := Normal jpeg_magic |} |}.

Definition scan_jpg : File :=
  {| name := "scan.jpg"; type := "IMAGE/HEIC";
     asBlob := {| arrayBuffer := Normal jpeg_magic |} |}.

Definition img_heic : File :=
  {| name := "IMG_0001.heic"; type := "image/heic";
     asBlob := {| arrayBuffer := Normal [Byte.x00; Byte.x00] |} |}.

(** A host whose parser reads an orientation and whose transcoder throws. *)
Definition failing_transcoder : Host :=
  {| exifr_parse := fun _ _ =>
       Normal (VObject [("Orientation", VNumber (number_of_Z 6))]);
     heic2any := fun _ => Throw (HostError "ERR_LIBHEIF format not supported") |}.

Definition bigint_error : exn :=
  TypeError "Do not know how to serialize a BigInt".

(** Sample metadata trees. *)
Definition gps_tree : value :=
  VObject [("GPSLatitude", VTypedArray Float64Array [S754_nan; number_of_Z 2])].

Definition nested_tree : value :=
  VObject
    [("Make", VString "Apple");
     ("MakerNote", VTypedArray Uint8Array [number_of_Z 1; number_of_Z 2; number_of_Z 3]);
     ("ifd1",
      VObject
        [("Thumbnail",
          VArray [VTypedArray Int16Array [number_of_Z (-1); number_of_Z 0]; VNull]);
         ("Flash", VBool false)])].

Definition exposure_tree : value :=
  VObject [("ExposureTime", VNumber S754_nan)].

Definition empty_bigint_tree : value :=
  VObject [("MakerNote", VBigIntArray BigInt64Array [])].

Definition bigint_tree : value :=
  VObject [("Make", VString "Apple");
           ("MakerNote", VBigIntArray BigUint64Array [1%Z])].

(** A host whose transcoder gives three bytes and whose parser gives
    [exifObj]. *)
Definition transcoding_host (exifObj : completion value) : Host :=
  {| exifr_parse := fun _ _ => exifObj;
     heic2any := fun _ => Normal {| arrayBuffer := Normal jpeg_magic |} |}.

Definition parser_error : exn := HostError "Unknown file format".

(* ================================================================= *)
(** ** Induction over value trees and JSON trees *)

Section ValueTreeInd.
Variable P : value -> Prop.
Hypothesis P_undefined : P VUndefined.
Hypothesis P_null : P VNull.
Hypothesis P_bool : forall b, P (VBool b).
Hypothesis P_number : forall x, P (VNumber x).
Hypothesis P_bigint : forall z, P (VBigInt z).
Hypothesis P_string : forall s, P (VString s).
Hypothesis P_typed : forall c xs, P (VTypedArray c xs).
Hypothesis P_bigints : forall c zs, P (VBigIntArray c zs).
Hypothesis P_array : forall l, Forall P l -> P (VArray l).
Hypothesis P_object :
  forall ps, Forall (fun p => P (snd p)) ps -> P (VObject ps).

Fixpoint value_tree_ind (v : value) : P v :=
  match v with
  | VUndefined => P_undefined
  | VNull => P_null
  | VBool b => P_bool b
  | VNumber x => P_number x
  | VBigInt z => P_bigint z
  | VString s => P_string s
  | VTypedArray c xs => P_typed c xs
  | VBigIntArray c zs => P_bigints c zs
  | VArray l =>
      P_array l
        ((fix all (l : list value) : Forall P l :=
            match l with
            | [] => Forall_nil P
            | x :: r => Forall_cons x (value_tree_ind x) (all r)
            end) l)
  | VObject ps =>
      P_object ps
        ((fix all (ps : list (string * value))
            : Forall (fun p => P (snd p)) ps :=
            match ps with
            | [] => Forall_nil _
            | p :: r => Forall_cons p (value_tree_ind (snd p)) (all r)
            end) ps)
  end.
End ValueTreeInd.

Section JsonTreeInd.
Variable P : json -> Prop.
Hypothesis P_null : P JNull.
Hypothesis P_bool : forall b, P (JBool b).
Hypothesis P_number : forall x, P (JNumber x).
Hypothesis P_string : forall s, P (JString s).
Hypothesis P_array : forall l, Forall P l -> P (JArray l).
Hypothesis P_object :
  forall ms, Forall (fun m => P (snd m)) ms -> P (JObject ms).

Fixpoint json_tree_ind (j : json) : P j :=
  match j with
  | JNull => P_null
  | JBool b => P_bool b
  | JNumber x => P_number x
  | JString s => P_string s
  | JArray l =>
      P_array l
        ((fix all (l : list json) : Forall P l :=
            match l with
            | [] => Forall_nil P
            | x :: r => Forall_cons x (json_tree_ind x) (all r)
            end) l)
  | JObject ms =>
      P_object ms
        ((fix all (ms : list (string * json))
            : Forall (fun m => P (snd m)) ms :=
            match ms with
            | [] => Forall_nil _
            | m :: r => Forall_cons m (json_tree_ind (snd m)) (all r)
            end) ms)
  end.
End JsonTreeInd.

(* ================================================================= *)
(** ** rotateAndConvertToJpeg *)

(** [v === n] for an integer literal [n]: [v] is a Number whose value is
    [n] (either zero equals [0]; NaN and the infinities equal nothing). *)
Definition number_is_integer (x : number) (n : Z) : bool :=
  match x with
  | S754_zero _ => Z.eqb n 0
  | S754_finite s m e =>
      let sm := if s then Zneg m else Zpos m in
      if (0 <=? e)%Z then Z.eqb (sm * 2 ^ e) n
      else Z.eqb sm (n * 2 ^ (- e))
  | S754_infinity _ | S754_nan => false
  end.

Definition strict_equals (v : value) (n : Z) : bool :=
  match v with
  | VNumber x => number_is_integer x n
  | _ => false
  end.

Module ImageBitmap.
Record t : Type := { width : N; height : N }.
End ImageBitmap.

(** The angles the source passes to [ctx.rotate]:
    [Math.PI], [Math.PI / 2], [-Math.PI / 2]. *)
Inductive angle : Type :=
| Math_PI
| Math_PI_div_2
| neg_Math_PI_div_2.

(** The calls on the 2d context. *)
Inductive canvas_op : Type :=
| ctx_save
| ctx_restore
| ctx_translate (x y : Z)
| ctx_rotate (a : angle)
| ctx_drawImage (image : ImageBitmap.t) (dx dy : Z).

Module Canvas.
(** A canvas: its size and the context calls performed on it. *)
Record t : Type := { width : N; height : N; drawn : list canvas_op }.

(** [document.createElement ("canvas")]: 300 by 150, nothing drawn. *)
Definition create : t := {| width := 300; height := 150; drawn := [] |}.

(** Assigning a dimension clears the canvas and resets its context. *)
Definition set_width (w : N) (c : t) : t :=
  {| width := w; height := height c; drawn := [] |}.

Definition set_height (h : N) (c : t) : t :=
  {| width := width c; height := h; drawn := [] |}.

Definition perform (op : canvas_op) (c : t) : t :=
  {| width := width c; height := height c; drawn := drawn c ++ [op] |}.
End Canvas.

(** The browser capabilities the function uses: decoding a blob, and
    encoding a canvas ([toBlob] either throws, or passes a blob or [null] to
    its callback). *)
Record Browser : Type := {
  createImageBitmap : Blob -> completion ImageBitmap.t;
  toBlob : Canvas.t -> string -> completion (option Blob)
}.

(** The state of the returned promise. *)
Inductive settlement (A : Type) : Type :=
| Fulfilled (a : A)
| Rejected (e : exn)
| Pending.

Arguments Fulfilled {A} a.
Arguments Rejected {A} e.
Arguments Pending {A}.

(** The canvas after the statements from [document.createElement] to
    [ctx.restore ()]. *)
Definition rotated_canvas (imageBitmap : ImageBitmap.t) (orientation : value)
  : Canvas.t :=
  let canvas := Canvas.create in
  let canvas :=
    if strict_equals orientation 6 || strict_equals orientation 8 then
      Canvas.set_height (ImageBitmap.width imageBitmap)
        (Canvas.set_width (ImageBitmap.height imageBitmap) canvas)
    else
      Canvas.set_height (ImageBitmap.height imageBitmap)
        (Canvas.set_width (ImageBitmap.width imageBitmap) canvas) in
  let canvas := Canvas.perform ctx_save canvas in
  let canvas :=
    if strict_equals orientation 3 then
      Canvas.perform (ctx_rotate Math_PI)
        (Canvas.perform
           (ctx_translate (Z.of_N (Canvas.width canvas))
              (Z.of_N (Canvas.height canvas))) canvas)
    else if strict_equals orientation 6 then
      Canvas.perform (ctx_rotate Math_PI_div_2)
        (Canvas.perform (ctx_translate (Z.of_N (Canvas.width canvas)) 0) canvas)
    else if strict_equals orientation 8 then
      Canvas.perform (ctx_rotate neg_Math_PI_div_2)
        (Canvas.perform (ctx_translate 0 (Z.of_N (Canvas.height canvas))) canvas)
    else canvas in
  let canvas := Canvas.perform (ctx_drawImage imageBitmap 0 0) canvas in
  Canvas.perform ctx_restore canvas.

(** [async function rotateAndConvertToJpeg (blob, orientation)].  A
    rejection of [createImageBitmap] rejects the promise of the async
    function, and so does an exception of [canvas.toBlob] inside the
    executor.  The executor has no [reject]: when the callback receives
    [null] (its [blob.arrayBuffer ()] throws inside the callback) or when the
    read of the blob rejects, [resolve] is never called. *)
Definition rotateAndConvertToJpeg (browser : Browser) (blob : Blob)
  (orientation : value) : settlement bytes :=
  match createImageBitmap browser blob with
  | Throw e => Rejected e
  | Normal imageBitmap =>
      let canvas := rotated_canvas imageBitmap orientation in
      match toBlob browser canvas "image/jpeg" with
      | Throw e => Rejected e
      | Normal None => Pending
      | Normal (Some encoded) =>
          match arrayBuffer encoded with
          | Normal buffer => Fulfilled (Uint8Array_of buffer)
          | Throw _ => Pending
          end
      end
  end.

(** *** Where the context calls put the image

    The current transformation matrix of a 2d context, with [Math.PI] read
    as a half turn and [Math.PI / 2] as a quarter turn: a point [(x, y)]
    goes to [(a x + c y + e, b x + d y + f)]. *)
Record affine : Type := {
  m_a : Z; m_b : Z; m_c : Z; m_d : Z; m_e : Z; m_f : Z
}.

Definition identity : affine :=
  {| m_a := 1; m_b := 0; m_c := 0; m_d := 1; m_e := 0; m_f := 0 |}.

Definition apply_affine (M : affine) (p : Z * Z) : Z * Z :=
  (m_a M * fst p + m_c M * snd p + m_e M,
   m_b M * fst p + m_d M * snd p + m_f M)%Z.

(** [compose M N]: first [N], then [M]. *)
Definition compose (M N : affine) : affine :=
  {| m_a := m_a M * m_a N + m_c M * m_b N;
     m_b := m_b M * m_a N + m_d M * m_b N;
     m_c := m_a M * m_c N + m_c M * m_d N;
     m_d := m_b M * m_c N + m_d M * m_d N;
     m_e := m_a M * m_e N + m_c M * m_f N + m_e M;
     m_f := m_b M * m_e N + m_d M * m_f N + m_f M |}%Z.

Definition translation (x y : Z) : affine :=
  {| m_a := 1; m_b := 0; m_c := 0; m_d := 1; m_e := x; m_f := y |}.

(** Cosine and sine of the three angles, read as exact turns. *)
Definition cos_sin (a : angle) : Z * Z :=
  match a with
  | Math_PI => (-1, 0)
  | Math_PI_div_2 => (0, 1)
  | neg_Math_PI_div_2 => (0, -1)
  end%Z.

Definition rotation (a : angle) : affine :=
  let (c, s) := cos_sin a in
  {| m_a := c; m_b := s; m_c := (- s)%Z; m_d := c; m_e := 0; m_f := 0 |}.

(** The images drawn by a sequence of context calls, each with the matrix
    that places it, and the matrix and the stack of saved matrices left at
    the end. *)
Fixpoint paint (ops : list canvas_op) (ctm : affine) (saved : list affine)
  : list (ImageBitmap.t * affine) * (affine * list affine) :=
  match ops with
  | [] => ([], (ctm, saved))
  | ctx_save :: rest => paint rest ctm (ctm :: saved)
  | ctx_restore :: rest =>
      match saved with
      | [] => paint rest ctm []
      | M :: saved' => paint rest M saved'
      end
  | ctx_translate x y :: rest => paint rest (compose ctm (translation x y)) saved
  | ctx_rotate a :: rest => paint rest (compose ctm (rotation a)) saved
  | ctx_drawImage image dx dy :: rest =>
      let (images, final) := paint rest ctm saved in
      ((image, compose ctm (translation dx dy)) :: images, final)
  end.

(** ** Further definitions used by the statements *)

(** The value that comes back for a Number: itself when finite (negative
    zero as zero), [null] otherwise. *)
Definition number_value (x : number) : value :=
  if is_finite x then VNumber (number_literal x) else VNull.

(** The events of an invocation started on an empty trace. *)
Definition added_events (host : Host) (file : File) : list event :=
  snd (ensureJpegBytes host file []).

Definition is_parse_call (ev : event) : bool :=
  match ev with
  | call_exifr_parse _ => true
  | _ => false
  end.

Definition is_transcode_call (ev : event) : bool :=
  match ev with
  | call_heic2any _ => true
  | _ => false
  end.

Definition is_read (ev : event) : bool :=
  match ev with
  | read_arrayBuffer => true
  | _ => false
  end.

(** The library calls a run may make: the parser without value
    translation, the transcoder towards JPEG. *)
Definition is_expected_call (ev : event) : bool :=
  match ev with
  | call_exifr_parse options => negb (translateValues options)
  | call_heic2any toType => String.eqb toType "image/jpeg"
  | _ => true
  end.

Definition is_failure_log (ev : event) : bool :=
  match ev with
  | console_error _ => true
  | _ => false
  end.

(** Sample inputs of the rotation. *)
Definition portrait_bitmap : ImageBitmap.t :=
  {| ImageBitmap.width := 4032; ImageBitmap.height := 3024 |}.

Definition encoding_browser (encoded : completion (option Blob)) : Browser :=
  {| createImageBitmap := fun _ => Normal portrait_bitmap;
     toBlob := fun _ _ => encoded |}.

(* ================================================================= *)
(** * Properties *)

(* ================================================================= *)
(** ** Strings and classification *)

Module JSStringFacts.

Local Open Scope string_scope.

Lemma length_append (p q : string) :
  String.length (p ++ q) = String.length p + String.length q.
Proof. induction p as [|c p IH]; simpl; [reflexivity | now rewrite IH]. Qed.

Lemma substring_whole (s : string) : substring 0 (String.length s) s = s.
Proof. induction s as [|c s IH]; simpl; [reflexivity | now rewrite IH]. Qed.

Lemma substring_after (p q : string) :
  substring (String.length p) (String.length q) (p ++ q) = q.
Proof. induction p as [|c p IH]; simpl; [apply substring_whole | exact IH]. Qed.

Lemma substring_split (s : string) :
  forall n, n <= String.length s ->
    s = substring 0 n s ++ substring n (String.length s - n) s.
Proof.
  induction s as [|c s IH]; intros n Hn; simpl in *.
  - destruct n; reflexivity.
  - destruct n as [|n]; simpl.
    + now rewrite substring_whole.
    + f_equal. apply IH. lia.
Qed.

(** [endsWith] answers [true] exactly on the strings that are some stem
    followed by the search string. *)
Lemma endsWith_suffix (s suffix : string) :
  endsWith s suffix = true <-> exists stem, s = stem ++ suffix.
Proof.
  unfold endsWith. split.
  - destruct (Nat.ltb_spec (String.length s) (String.length suffix)) as [Hlt|Hge];
      [discriminate|].
    intros H. apply String.eqb_eq in H.
    exists (substring 0 (String.length s - String.length suffix) s).
    pose proof (substring_split s (String.length s - String.length suffix))
      as Hsplit.
    replace (String.length s - (String.length s - String.length suffix))
      with (String.length suffix) in Hsplit by lia.
    rewrite H in Hsplit. apply Hsplit. lia.
  - intros [stem ->]. rewrite length_append.
    destruct (Nat.ltb_spec (String.length stem + String.length suffix)
                (String.length suffix)) as [Hlt|Hge]; [lia|].
    replace (String.length stem + String.length suffix - String.length suffix)
      with (String.length stem) by lia.
    rewrite substring_after. apply String.eqb_refl.
Qed.

End JSStringFacts.

(** C3.  An input is classified as HEIC exactly when its declared type is
    the string image/heic or its lower-cased name is some stem followed by
    .heic; a file named photo.HEIC is classified as HEIC whatever its
    declared type and contents; and two files with the same name and the
    same declared type are classified alike, whatever their bytes. *)
Theorem isHeic_rule :
  (forall file,
      isHeic file = true <->
      type file = "image/heic" \/
      exists stem, toLowerCase (name file) = (stem ++ ".heic")%string)
  /\ (forall declared contents,
         isHeic {| name := "photo.HEIC"; type := declared; asBlob := contents |}
         = true)
  /\ (forall f g, name f = name g -> type f = type g -> isHeic f = isHeic g).
Proof.
  split; [|split].
  - intros file. unfold isHeic. rewrite orb_true_iff, String.eqb_eq.
    now rewrite JSStringFacts.endsWith_suffix.
  - intros declared contents. unfold isHeic. simpl name.
    replace (endsWith (toLowerCase "photo.HEIC") ".heic") with true
      by reflexivity.
    apply orb_true_r.
  - intros f g Hn Ht. unfold isHeic. now rewrite Hn, Ht.
Qed.

(** The rule of C3 at two files that differ in their bytes only. *)
Lemma isHeic_rule_witness :
  isHeic {| name := "IMG_0001.HeIc"; type := "application/octet-stream";
            asBlob := {| arrayBuffer := Normal [Byte.x00] |} |}
  = isHeic {| name := "IMG_0001.HeIc"; type := "application/octet-stream";
              asBlob := {| arrayBuffer := Throw (HostError "NotReadableError") |} |}.
Proof.
  apply (proj2 (proj2 isHeic_rule)); reflexivity.
Defined.

(* ================================================================= *)
(** ** The two paths of ensureJpegBytes *)

Ltac unfold_async :=
  cbv [ensureJpegBytes try_catch ensureJpegBytes_try bind emit await lift ret].

Ltac flatten_trace :=
  repeat rewrite <- app_assoc; simpl app.

Lemma passthrough_path host file tr :
  isHeic file = false ->
  ensureJpegBytes host file tr =
  match arrayBuffer (asBlob file) with
  | Normal buffer =>
      (Normal {| jpeg := buffer; exif := VObject [] |}, tr ++ passthrough_events)
  | Throw _ =>
      (Normal degraded, tr ++ passthrough_events ++ [failure_logged])
  end.
Proof.
  intros Hclass. unfold_async. rewrite Hclass. cbv [negb].
  destruct (arrayBuffer (asBlob file)); flatten_trace; reflexivity.
Qed.

Lemma heic_path host file tr :
  isHeic file = true ->
  ensureJpegBytes host file tr =
  match exifr_parse host file default_options with
  | Throw _ => (Normal degraded, tr ++ extraction_events ++ [failure_logged])
  | Normal exifObj =>
      let tr1 := tr ++ extraction_events ++ transcoding_events exifObj in
      match heic2any host (jpeg_request file) with
      | Throw _ => (Normal degraded, tr1 ++ [failure_logged])
      | Normal jpegBlob =>
          let tr2 := tr1 ++ transcoded_read_events in
          match arrayBuffer jpegBlob with
          | Throw _ => (Normal degraded, tr2 ++ [failure_logged])
          | Normal buffer =>
              match sanitizeExif exifObj with
              | Throw _ => (Normal degraded, tr2 ++ [failure_logged])
              | Normal exifValue =>
                  (Normal {| jpeg := buffer; exif := exifValue |}, tr2)
              end
          end
      end
  end.
Proof.
  intros Hclass. unfold_async. rewrite Hclass. cbv [negb].
  change {| translateValues := false |} with default_options.
  change {| blob := file; toType := "image/jpeg" |} with (jpeg_request file).
  destruct (exifr_parse host file default_options) as [exifObj|e];
    [|flatten_trace; reflexivity].
  cbv [transcoding_events extraction_report].
  destruct (ToBoolean exifObj);
    (destruct (heic2any host (jpeg_request file)) as [jpegBlob|e];
     [|flatten_trace; reflexivity]);
    (destruct (arrayBuffer jpegBlob) as [buffer|e];
     [|flatten_trace; reflexivity]);
    (destruct (sanitizeExif exifObj) as [exifValue|e];
     flatten_trace; reflexivity).
Qed.

(** C1.  For every host, file and trace, ensureJpegBytes completes normally
    with a result, never with an exception; and whenever a step fails (the
    byte read, metadata extraction, transcoding or sanitization throws,
    whatever the earlier steps returned), that result is the degraded one,
    an empty jpeg with an empty exif mapping; so is it whenever the body of
    the try block completes with an exception. *)
Theorem ensureJpegBytes_never_throws host file tr :
  (exists result tr', ensureJpegBytes host file tr = (Normal result, tr'))
  /\ (step_fails host file ->
      fst (ensureJpegBytes host file tr) = Normal degraded)
  /\ (forall e, fst (ensureJpegBytes_try host file tr) = Throw e ->
                fst (ensureJpegBytes host file tr) = Normal degraded).
Proof.
  split; [|split].
  - destruct (isHeic file) eqn:Hclass.
    + rewrite (heic_path host file tr Hclass).
      destruct (exifr_parse host file default_options); [|eauto].
      cbv zeta.
      destruct (heic2any host (jpeg_request file)) as [jpegBlob|]; [|eauto].
      destruct (arrayBuffer jpegBlob); [|eauto].
      destruct (sanitizeExif a); eauto.
    + rewrite (passthrough_path host file tr Hclass).
      destruct (arrayBuffer (asBlob file)); eauto.
  - intros [e Hclass Hread
           |e Hclass Hparse
           |e Hclass Hconv
           |jpegBlob e Hclass Hconv Hread
           |exifObj e Hclass Hparse Hsan].
    + rewrite (passthrough_path host file tr Hclass), Hread. reflexivity.
    + rewrite (heic_path host file tr Hclass), Hparse. reflexivity.
    + rewrite (heic_path host file tr Hclass), Hconv.
      destruct (exifr_parse host file default_options); reflexivity.
    + rewrite (heic_path host file tr Hclass), Hconv, Hread.
      destruct (exifr_parse host file default_options); reflexivity.
    + rewrite (heic_path host file tr Hclass), Hparse, Hsan. cbv zeta.
      destruct (heic2any host (jpeg_request file)) as [jpegBlob|];
        [|reflexivity].
      destruct (arrayBuffer jpegBlob); reflexivity.
  - intros e. unfold ensureJpegBytes, try_catch.
    destruct (ensureJpegBytes_try host file tr) as [[result|e'] tr'];
      simpl; [discriminate | reflexivity].
Qed.

(** C1 at a HEIC file whose metadata is read but whose transcoding throws. *)
Lemma ensureJpegBytes_never_throws_witness :
  fst (ensureJpegBytes failing_transcoder img_heic []) = Normal degraded.
Proof.
  apply (proj1 (proj2 (ensureJpegBytes_never_throws failing_transcoder img_heic []))).
  apply transcoding_fails with (e := HostError "ERR_LIBHEIF format not supported");
    reflexivity.
Defined.

(** C2.  For a file that is not classified as HEIC and whose bytes are
    read, ensureJpegBytes returns those bytes as jpeg and the empty mapping
    as exif; the only events are the two console messages and the byte read,
    so neither the metadata parser nor the transcoder is called, and the
    outcome is the same under every host. *)
Theorem passthrough_returns_raw_bytes host file tr buffer :
  isHeic file = false ->
  arrayBuffer (asBlob file) = Normal buffer ->
  ensureJpegBytes host file tr =
    (Normal {| jpeg := buffer; exif := VObject [] |}, tr ++ passthrough_events)
  /\ existsb is_library_call passthrough_events = false
  /\ forall host', ensureJpegBytes host' file tr = ensureJpegBytes host file tr.
Proof.
  intros Hclass Hread. split; [|split].
  - now rewrite (passthrough_path host file tr Hclass), Hread.
  - reflexivity.
  - intros host'. now rewrite !passthrough_path by exact Hclass.
Qed.

Lemma passthrough_returns_raw_bytes_witness :
  ensureJpegBytes no_library holiday_jpg []
  = (Normal {| jpeg := jpeg_magic; exif := VObject [] |}, passthrough_events).
Proof.
  apply (proj1 (passthrough_returns_raw_bytes no_library holiday_jpg []
                  jpeg_magic eq_refl eq_refl)).
Defined.

(** C9.  For a file whose lower-cased name does not end with .heic, the
    classification is the exact comparison of the declared type with
    image/heic; the declared types IMAGE/HEIC, image/heif and
    image/heic; charset=utf-8 are therefore not HEIC, and such a file whose
    bytes are read takes the passthrough path: its raw bytes come back with
    an empty exif mapping. *)
Theorem declared_type_compared_exactly host file tr buffer :
  endsWith (toLowerCase (name file)) ".heic" = false ->
  (isHeic file = true <-> type file = "image/heic")
  /\ (In (type file) ["IMAGE/HEIC"; "image/heif"; "image/heic; charset=utf-8"] ->
      arrayBuffer (asBlob file) = Normal buffer ->
      isHeic file = false
      /\ fst (ensureJpegBytes host file tr)
         = Normal {| jpeg := buffer; exif := VObject [] |}).
Proof.
  intros Hname.
  assert (Hrule : isHeic file = String.eqb (type file) "image/heic").
  { unfold isHeic. rewrite Hname. apply orb_false_r. }
  split.
  - rewrite Hrule. apply String.eqb_eq.
  - intros Hty Hread.
    assert (Hclass : isHeic file = false).
    { rewrite Hrule.
      destruct Hty as [<-|[<-|[<-|[]]]]; reflexivity. }
    split; [exact Hclass|].
    now rewrite (passthrough_path host file tr Hclass), Hread.
Qed.

Lemma declared_type_compared_exactly_witness :
  isHeic scan_jpg = false
  /\ fst (ensureJpegBytes no_library scan_jpg [])
     = Normal {| jpeg := jpeg_magic; exif := VObject [] |}.
Proof.
  apply (proj2 (declared_type_compared_exactly no_library scan_jpg []
                  jpeg_magic eq_refl));
    [simpl; auto | reflexivity].
Defined.

(* ================================================================= *)
(** ** The budgeted serialization computes the closed form *)

Lemma replacer_typed key c xs :
  replacer key (VTypedArray c xs) =
  if handled c then VArray (map VNumber xs) else VTypedArray c xs.
Proof. destruct c; reflexivity. Qed.

Lemma replacer_bigints key c zs :
  replacer key (VBigIntArray c zs) = VBigIntArray c zs.
Proof. reflexivity. Qed.

Lemma SerializeJSONProperty_number n key x :
  SerializeJSONProperty replacer (S n) key (VNumber x)
  = Some (Normal (Some (number_text x))).
Proof. unfold number_text. simpl. destruct (is_finite x); reflexivity. Qed.

Lemma SerializeJSONArray_numbers n xs :
  forall i,
    SerializeJSONArray (SerializeJSONProperty replacer (S n)) i (map VNumber xs)
    = Some (Normal (map number_text xs)).
Proof.
  induction xs as [|x xs IH]; intros i; [reflexivity|].
  cbn [map SerializeJSONArray].
  rewrite SerializeJSONProperty_number, IH. reflexivity.
Qed.

Lemma SerializeJSONObject_numbers n xs :
  forall i,
    SerializeJSONObject (SerializeJSONProperty replacer (S n))
      (indexed_from i (map VNumber xs))
    = Some (Normal (indexed_from i (map number_text xs))).
Proof.
  induction xs as [|x xs IH]; intros i; [reflexivity|].
  cbn [map indexed_from SerializeJSONObject].
  rewrite SerializeJSONProperty_number, IH. reflexivity.
Qed.

Lemma SerializeJSONArray_parts (ser : string -> value -> eval (option json)) l :
  Forall (fun x => forall key, ser key x = Some (serialize x)) l ->
  forall i, SerializeJSONArray ser i l = Some (array_text (map serialize l)).
Proof.
  induction 1 as [|x l Hx _ IH]; intros i; [reflexivity|].
  cbn [map SerializeJSONArray array_text].
  rewrite Hx, IH.
  destruct (serialize x) as [strP|e]; [|reflexivity].
  cbn. destruct (array_text (map serialize l)); reflexivity.
Qed.

Lemma SerializeJSONObject_parts (ser : string -> value -> eval (option json)) ps :
  Forall (fun p => forall key, ser key (snd p) = Some (serialize (snd p))) ps ->
  SerializeJSONObject ser ps
  = Some (object_text (map (fun p => (fst p, serialize (snd p))) ps)).
Proof.
  induction 1 as [|[k x] ps Hx _ IH]; [reflexivity|].
  cbn [map SerializeJSONObject object_text fst snd] in *.
  rewrite Hx, IH.
  destruct (serialize x) as [strP|e]; [|reflexivity].
  cbn. destruct (object_text _); reflexivity.
Qed.

Lemma list_max_bound {A} (f : A -> nat) l x :
  In x l -> f x <= list_max (map f l).
Proof.
  intros Hin.
  assert (Hle : list_max (map f l) <= list_max (map f l)) by lia.
  rewrite list_max_le, Forall_forall in Hle.
  exact (Hle (f x) (in_map f l x Hin)).
Qed.

Lemma SerializeJSONProperty_serialize v :
  forall n key,
    depth v < n -> SerializeJSONProperty replacer n key v = Some (serialize v).
Proof.
  induction v as [| |b|x|z|s|c xs|c zs|l IH|ps IH] using value_tree_ind;
    intros n key Hn; (destruct n as [|n]; [inversion Hn|]);
    try reflexivity.
  - apply SerializeJSONProperty_number.
  - cbn [SerializeJSONProperty serialize]. rewrite replacer_typed.
    cbn [depth] in Hn. destruct n as [|n]; [lia|].
    destruct (handled c).
    + now rewrite SerializeJSONArray_numbers.
    + unfold indexed. now rewrite SerializeJSONObject_numbers.
  - cbn [SerializeJSONProperty serialize]. rewrite replacer_bigints.
    cbn [depth] in Hn. destruct n as [|n]; [lia|].
    destruct zs; reflexivity.
  - cbn [SerializeJSONProperty serialize]. cbn [depth] in Hn.
    change (replacer key (VArray l)) with (VArray l). cbv beta iota.
    rewrite (SerializeJSONArray_parts _ l).
    + destruct (array_text (map serialize l)); reflexivity.
    + apply Forall_forall. intros x Hin key'.
      rewrite Forall_forall in IH. apply (IH x Hin).
      pose proof (list_max_bound depth l x Hin). lia.
  - cbn [SerializeJSONProperty serialize]. cbn [depth] in Hn.
    change (replacer key (VObject ps)) with (VObject ps). cbv beta iota.
    rewrite (SerializeJSONObject_parts _ ps).
    + destruct (object_text _); reflexivity.
    + apply Forall_forall. intros p Hin key'.
      rewrite Forall_forall in IH. apply (IH p Hin).
      pose proof (list_max_bound (fun p => depth (snd p)) ps p Hin) as Hd.
      simpl in Hd. lia.
Qed.

(** [sanitizeExif] is the closed form followed by [JSON.parse]. *)
Lemma sanitizeExif_eq v :
  sanitizeExif v = completion_bind (serialize v) JSON_parse.
Proof.
  unfold sanitizeExif, sanitizeExif_within, JSON_stringify.
  rewrite SerializeJSONProperty_serialize by lia.
  destruct (serialize v); reflexivity.
Qed.

(** Every budget above the depth of the tree is enough and gives the
    completion of [sanitizeExif]. *)
Lemma sanitizeExif_within_enough v n :
  depth v < n -> sanitizeExif_within n v = Some (sanitizeExif v).
Proof.
  intros Hn. rewrite sanitizeExif_eq.
  unfold sanitizeExif_within, JSON_stringify.
  rewrite SerializeJSONProperty_serialize by exact Hn.
  destruct (serialize v); reflexivity.
Qed.

(* ================================================================= *)
(** ** What the serialization writes *)

Lemma number_text_canonical x : canonical (number_text x) = true.
Proof. destruct x as [[|]|[|]| |s m e]; reflexivity. Qed.

Lemma number_text_json_number x :
  json_number x = true -> number_text x = JNumber x.
Proof. destruct x as [[|]|[|]| |s m e]; simpl; intros H; try discriminate; reflexivity. Qed.

Lemma forallb_map {A B} (f : A -> B) (q : B -> bool) l :
  forallb q (map f l) = forallb (fun x => q (f x)) l.
Proof. induction l as [|x l IH]; simpl; [reflexivity | now rewrite IH]. Qed.

Lemma forallb_indexed_from {A} (q : A -> bool) l :
  forall i, forallb (fun m => q (snd m)) (indexed_from i l) = forallb q l.
Proof.
  induction l as [|x l IH]; intros i; [reflexivity|].
  simpl. now rewrite IH.
Qed.

Lemma array_text_canonical parts :
  Forall (fun c => forall j, c = Normal (Some j) -> canonical j = true) parts ->
  forall t, array_text parts = Normal t -> forallb canonical t = true.
Proof.
  induction 1 as [|c parts Hc _ IH]; intros t Ht; simpl in Ht.
  - now inversion Ht.
  - destruct c as [strP|e]; [|discriminate]. simpl in Ht.
    destruct (array_text parts) as [partial|e]; [|discriminate]. simpl in Ht.
    inversion Ht; subst; clear Ht.
    destruct strP as [j|]; simpl; rewrite (IH partial eq_refl);
      [rewrite (Hc j eq_refl)|]; reflexivity.
Qed.

Lemma object_text_canonical parts :
  Forall (fun c => forall j, snd c = Normal (Some j) -> canonical j = true) parts ->
  forall t, object_text parts = Normal t ->
            forallb (fun m => canonical (snd m)) t = true.
Proof.
  induction 1 as [|[k c] parts Hc _ IH]; intros t Ht; simpl in Ht.
  - now inversion Ht.
  - simpl in Hc. destruct c as [strP|e]; [|discriminate]. simpl in Ht.
    destruct (object_text parts) as [partial|e]; [|discriminate]. simpl in Ht.
    inversion Ht; subst; clear Ht.
    destruct strP as [j|]; simpl; rewrite (IH partial eq_refl);
      [rewrite (Hc j eq_refl)|]; reflexivity.
Qed.

Lemma serialize_canonical v :
  forall j, serialize v = Normal (Some j) -> canonical j = true.
Proof.
  induction v as [| |b|x|z|s|c xs|c zs|l IH|ps IH] using value_tree_ind;
    intros j Hj; simpl in Hj; try discriminate;
    try (inversion Hj; subst; reflexivity).
  - inversion Hj; subst. apply number_text_canonical.
  - destruct (handled c); inversion Hj; subst; simpl.
    + rewrite forallb_map. apply forallb_forall. intros x _.
      apply number_text_canonical.
    + unfold indexed. rewrite forallb_indexed_from, forallb_map.
      apply forallb_forall. intros x _. apply number_text_canonical.
  - destruct zs; [|discriminate]. inversion Hj; subst. reflexivity.
  - destruct (array_text (map serialize l)) as [t|e] eqn:Ht; [|discriminate].
    inversion Hj; subst. simpl.
    apply (array_text_canonical (map serialize l)); [|exact Ht].
    apply Forall_map. exact IH.
  - destruct (object_text _) as [t|e] eqn:Ht; [|discriminate].
    inversion Hj; subst. simpl.
    apply (object_text_canonical _) with (2 := Ht).
    apply Forall_map. exact IH.
Qed.

(* ================================================================= *)
(** ** What JSON.parse builds *)

Lemma distinct_NoDup keys : distinct keys = true <-> NoDup keys.
Proof.
  induction keys as [|k keys IH]; simpl.
  - split; [constructor | reflexivity].
  - rewrite andb_true_iff, negb_true_iff, IH. split.
    + intros [Hk Hd]. constructor; [|exact Hd].
      intros Hin. assert (existsb (String.eqb k) keys = true).
      { apply existsb_exists. exists k. split; [exact Hin|apply String.eqb_refl]. }
      congruence.
    + intros Hnd. inversion Hnd as [|? ? Hk Hd]; subst. split; [|exact Hd].
      destruct (existsb (String.eqb k) keys) eqn:E; [|reflexivity].
      apply existsb_exists in E. destruct E as [k' [Hin Heq]].
      apply String.eqb_eq in Heq. subst. contradiction.
Qed.

Lemma CreateDataProperty_keys O P V k :
  In k (map fst (CreateDataProperty O P V)) <-> In k (map fst O) \/ k = P.
Proof.
  induction O as [|[k0 v0] O IH]; simpl.
  - intuition congruence.
  - destruct (String.eqb_spec k0 P) as [->|Hne]; simpl; [intuition|].
    rewrite IH. intuition.
Qed.

Lemma CreateDataProperty_NoDup O P V :
  NoDup (map fst O) -> NoDup (map fst (CreateDataProperty O P V)).
Proof.
  induction O as [|[k0 v0] O IH]; simpl; intros Hnd.
  - constructor; [intros []|constructor].
  - inversion Hnd as [|? ? Hk Hd]; subst.
    destruct (String.eqb_spec k0 P) as [->|Hne]; simpl.
    + constructor; assumption.
    + constructor; [|auto].
      rewrite CreateDataProperty_keys. intros [Hin|Heq]; [contradiction|congruence].
Qed.

Lemma CreateDataProperty_values (q : value -> bool) O P V :
  forallb (fun p => q (snd p)) O = true -> q V = true ->
  forallb (fun p => q (snd p)) (CreateDataProperty O P V) = true.
Proof.
  induction O as [|[k0 v0] O IH]; simpl; intros HO HV.
  - now rewrite HV.
  - apply andb_true_iff in HO. destruct HO as [H0 HO].
    destruct (String.eqb k0 P); simpl.
    + now rewrite HV, HO.
    + now rewrite H0, IH.
Qed.

Lemma CreateDataProperty_fresh O P V :
  ~ In P (map fst O) -> CreateDataProperty O P V = O ++ [(P, V)].
Proof.
  induction O as [|[k0 v0] O IH]; simpl; intros Hfresh; [reflexivity|].
  destruct (String.eqb_spec k0 P) as [->|Hne]; [tauto|].
  f_equal. apply IH. tauto.
Qed.

(** The object built from members whose values are plain is plain. *)
Lemma internalize_members_plain ms :
  Forall (fun m => plain (json_value (snd m)) = true) ms ->
  forall O,
    NoDup (map fst O) ->
    forallb (fun p => plain (snd p)) O = true ->
    let O' := fold_left
                (fun O m => CreateDataProperty O (fst m) (json_value (snd m)))
                ms O in
    NoDup (map fst O') /\ forallb (fun p => plain (snd p)) O' = true.
Proof.
  induction 1 as [|m ms Hm _ IH]; intros O Hnd Hpl; simpl.
  - split; assumption.
  - apply IH.
    + now apply CreateDataProperty_NoDup.
    + now apply CreateDataProperty_values.
Qed.

(** The object built from members with pairwise different keys has those
    members, in order. *)
Lemma internalize_members_distinct ms :
  forall O,
    NoDup (map fst O ++ map fst ms) ->
    fold_left (fun O m => CreateDataProperty O (fst m) (json_value (snd m))) ms O
    = O ++ map (fun m => (fst m, json_value (snd m))) ms.
Proof.
  induction ms as [|[k j] ms IH]; intros O Hnd; simpl.
  - now rewrite app_nil_r.
  - rewrite CreateDataProperty_fresh.
    + rewrite IH.
      * now rewrite <- app_assoc.
      * rewrite map_app. simpl. rewrite <- app_assoc. exact Hnd.
    + simpl in Hnd. apply NoDup_remove_2 in Hnd.
      intros Hin. apply Hnd. apply in_or_app. now left.
Qed.

Lemma json_value_plain j : canonical j = true -> plain (json_value j) = true.
Proof.
  induction j as [|b|x|s|l IH|ms IH] using json_tree_ind; simpl; intros Hc;
    try reflexivity; try exact Hc.
  - rewrite forallb_map. apply forallb_forall. intros j Hin.
    rewrite Forall_forall in IH. rewrite forallb_forall in Hc. auto.
  - destruct (internalize_members_plain ms) with (O := @nil (string * value))
      as [Hnd Hpl].
    + apply Forall_forall. intros m Hin.
      rewrite Forall_forall in IH. rewrite forallb_forall in Hc. auto.
    + constructor.
    + reflexivity.
    + apply distinct_NoDup in Hnd. now rewrite Hnd, Hpl.
Qed.

(** The result of [sanitizeExif] is always a plain value. *)
Lemma sanitizeExif_plain v w : sanitizeExif v = Normal w -> plain w = true.
Proof.
  rewrite sanitizeExif_eq.
  destruct (serialize v) as [[j|]|e] eqn:Hs; simpl; intros Hw;
    inversion Hw; subst.
  apply json_value_plain. exact (serialize_canonical v j Hs).
Qed.

(* ================================================================= *)
(** ** Representable trees *)

Lemma json_value_number_texts xs :
  forallb json_number xs = true ->
  map json_value (map number_text xs) = map VNumber xs.
Proof.
  induction xs as [|x xs IH]; simpl; intros H; [reflexivity|].
  apply andb_true_iff in H. destruct H as [Hx Hxs].
  now rewrite (number_text_json_number x Hx), IH.
Qed.

Lemma array_text_representable l :
  Forall (fun x => exists j, serialize x = Normal (Some j) /\
                             json_value j = replaceBuffers x) l ->
  exists t, array_text (map serialize l) = Normal t /\
            map json_value t = map replaceBuffers l.
Proof.
  induction 1 as [|x l [j [Hj Hv]] _ [t [Ht Hm]]]; simpl.
  - now exists [].
  - rewrite Hj, Ht. simpl. exists (j :: t). simpl. now rewrite Hv, Hm.
Qed.

Lemma object_text_representable ps :
  Forall (fun p => exists j, serialize (snd p) = Normal (Some j) /\
                             json_value j = replaceBuffers (snd p)) ps ->
  exists t,
    object_text (map (fun p => (fst p, serialize (snd p))) ps) = Normal t /\
    map fst t = map fst ps /\
    map (fun m => (fst m, json_value (snd m))) t
    = map (fun p => (fst p, replaceBuffers (snd p))) ps.
Proof.
  induction 1 as [|[k x] ps [j [Hj Hv]] _ [t [Ht [Hk Hm]]]]; simpl in *.
  - now exists [].
  - rewrite Hj, Ht. simpl. exists ((k, j) :: t). simpl.
    now rewrite Hv, Hm, Hk.
Qed.

Lemma serialize_representable v :
  representable v = true ->
  exists j, serialize v = Normal (Some j) /\ json_value j = replaceBuffers v.
Proof.
  induction v as [| |b|x|z|s|c xs|c zs|l IH|ps IH] using value_tree_ind;
    simpl; intros Hr; try discriminate; try (eexists; split; reflexivity).
  - exists (JNumber x). now rewrite (number_text_json_number x Hr).
  - apply andb_true_iff in Hr. destruct Hr as [Hc Hxs]. rewrite Hc.
    eexists; split; [reflexivity|]. simpl.
    now rewrite json_value_number_texts.
  - destruct (array_text_representable l) as [t [Ht Hm]].
    + rewrite Forall_forall in *. rewrite forallb_forall in Hr. auto.
    + rewrite Ht. simpl. eexists; split; [reflexivity|]. simpl. now rewrite Hm.
  - apply andb_true_iff in Hr. destruct Hr as [Hd Hr].
    destruct (object_text_representable ps) as [t [Ht [Hk Hm]]].
    + rewrite Forall_forall in *. rewrite forallb_forall in Hr. auto.
    + rewrite Ht. simpl. eexists; split; [reflexivity|]. simpl.
      rewrite internalize_members_distinct; simpl.
      * now rewrite Hm.
      * rewrite Hk. now apply distinct_NoDup.
Qed.

Lemma plain_representable w :
  plain w = true -> representable w = true /\ replaceBuffers w = w.
Proof.
  induction w as [| |b|x|z|s|c xs|c zs|l IH|ps IH] using value_tree_ind;
    simpl; intros Hp; try discriminate; try (split; [assumption || reflexivity | reflexivity]).
  - rewrite Forall_forall in IH. rewrite forallb_forall in Hp. split.
    + apply forallb_forall. intros x Hin. now apply IH; auto.
    + f_equal. rewrite <- (map_id l) at 2. apply map_ext_in.
      intros x Hin. now apply IH; auto.
  - apply andb_true_iff in Hp. destruct Hp as [Hd Hp]. rewrite Hd.
    rewrite Forall_forall in IH. rewrite forallb_forall in Hp. split.
    + apply forallb_forall. intros p Hin. now apply IH; auto.
    + f_equal. rewrite <- (map_id ps) at 2. apply map_ext_in.
      intros [k x] Hin. simpl. f_equal. now apply (IH (k, x)); auto.
Qed.

Lemma sanitizeExif_representable v :
  representable v = true -> sanitizeExif v = Normal (replaceBuffers v).
Proof.
  intros Hr. rewrite sanitizeExif_eq.
  destruct (serialize_representable v Hr) as [j [Hj Hv]].
  rewrite Hj. simpl. now rewrite Hv.
Qed.

(** A plain value is left as it is. *)
Lemma sanitizeExif_fixes_plain w : plain w = true -> sanitizeExif w = Normal w.
Proof.
  intros Hp. destruct (plain_representable w Hp) as [Hr Hfix].
  rewrite (sanitizeExif_representable w Hr). now rewrite Hfix.
Qed.

(* ================================================================= *)
(** ** When the serialization throws *)

Lemma array_text_outcome (p : value -> bool) l :
  Forall (fun x =>
            (contains p x = true -> serialize x = Throw bigint_error) /\
            (contains p x = false -> exists t, serialize x = Normal t)) l ->
  (existsb (contains p) l = true ->
   array_text (map serialize l) = Throw bigint_error) /\
  (existsb (contains p) l = false ->
   exists t, array_text (map serialize l) = Normal t).
Proof.
  induction 1 as [|x l [Hthrow Hok] _ [IHthrow IHok]]; simpl.
  - split; [discriminate | now exists []].
  - destruct (contains p x) eqn:Hx; simpl.
    + split; [|discriminate]. intros _. now rewrite Hthrow.
    + destruct (Hok eq_refl) as [t Ht]. rewrite Ht. simpl. split.
      * intros Hl. now rewrite (IHthrow Hl).
      * intros Hl. destruct (IHok Hl) as [t' Ht']. rewrite Ht'. simpl. eauto.
Qed.

Lemma object_text_outcome (p : value -> bool) ps :
  Forall (fun q =>
            (contains p (snd q) = true -> serialize (snd q) = Throw bigint_error) /\
            (contains p (snd q) = false -> exists t, serialize (snd q) = Normal t))
         ps ->
  (existsb (fun q => contains p (snd q)) ps = true ->
   object_text (map (fun q => (fst q, serialize (snd q))) ps)
   = Throw bigint_error) /\
  (existsb (fun q => contains p (snd q)) ps = false ->
   exists t, object_text (map (fun q => (fst q, serialize (snd q))) ps)
             = Normal t).
Proof.
  induction 1 as [|[k x] ps [Hthrow Hok] _ [IHthrow IHok]]; simpl in *.
  - split; [discriminate | now exists []].
  - destruct (contains p x) eqn:Hx; simpl.
    + split; [|discriminate]. intros _. now rewrite Hthrow.
    + destruct (Hok eq_refl) as [t Ht]. rewrite Ht. simpl. split.
      * intros Hl. now rewrite (IHthrow Hl).
      * intros Hl. destruct (IHok Hl) as [t' Ht']. rewrite Ht'. simpl. eauto.
Qed.

(** The serialization throws exactly on the trees that hold a BigInt, and
    writes no text exactly for [undefined]. *)
Lemma serialize_outcome v :
  (contains holds_bigint v = true -> serialize v = Throw bigint_error) /\
  (contains holds_bigint v = false ->
   exists t, serialize v = Normal t /\ (t = None <-> v = VUndefined)).
Proof.
  induction v as [| |b|x|z|s|c xs|c zs|l IH|ps IH] using value_tree_ind;
    try (split; [discriminate|]; intros _; eexists; split; [reflexivity|];
         split; discriminate).
  - split; [discriminate|]. intros _. exists None. now split.
  - split; [reflexivity | discriminate].
  - split; [discriminate|]. intros _. simpl.
    destruct (handled c); eexists; (split; [reflexivity | split; discriminate]).
  - destruct zs as [|z zs]; simpl.
    + split; [discriminate|]. intros _. eexists.
      split; [reflexivity | split; discriminate].
    + split; [reflexivity | discriminate].
  - destruct (array_text_outcome holds_bigint l) as [Hthrow Hok].
    + apply Forall_impl with (2 := IH). intros x [H1 H2]. split; [exact H1|].
      intros Hc. destruct (H2 Hc) as [t [Ht _]]. eauto.
    + simpl. split.
      * intros Hc. now rewrite (Hthrow Hc).
      * intros Hc. destruct (Hok Hc) as [t Ht]. rewrite Ht. simpl.
        eexists; split; [reflexivity | split; discriminate].
  - destruct (object_text_outcome holds_bigint ps) as [Hthrow Hok].
    + apply Forall_impl with (2 := IH). intros q [H1 H2]. split; [exact H1|].
      intros Hc. destruct (H2 Hc) as [t [Ht _]]. eauto.
    + simpl. split.
      * intros Hc. now rewrite (Hthrow Hc).
      * intros Hc. destruct (Hok Hc) as [t Ht]. rewrite Ht. simpl.
        eexists; split; [reflexivity | split; discriminate].
Qed.

Lemma sanitizeExif_throws_on_bigint v :
  contains holds_bigint v = true -> sanitizeExif v = Throw bigint_error.
Proof.
  intros Hc. rewrite sanitizeExif_eq.
  now rewrite (proj1 (serialize_outcome v) Hc).
Qed.

Lemma sanitizeExif_succeeds v :
  contains holds_bigint v = false -> v <> VUndefined ->
  exists w, sanitizeExif v = Normal w /\ plain w = true.
Proof.
  intros Hc Hdef.
  destruct (proj2 (serialize_outcome v) Hc) as [[j|] [Ht Hnone]].
  - assert (Hs : sanitizeExif v = Normal (json_value j))
      by (rewrite sanitizeExif_eq, Ht; reflexivity).
    exists (json_value j). split; [exact Hs|].
    exact (sanitizeExif_plain v _ Hs).
  - exfalso. apply Hdef. now apply Hnone.
Qed.

Lemma contains_weaken (p q : value -> bool) :
  (forall v, p v = true -> q v = true) ->
  forall v, contains p v = true -> contains q v = true.
Proof.
  intros Hpq.
  induction v as [| |b|x|z|s|c xs|c zs|l IH|ps IH] using value_tree_ind;
    simpl; rewrite ?orb_false_r; try apply Hpq.
  - rewrite !orb_true_iff, !existsb_exists. intros [Hp|[x [Hin Hx]]].
    + left. now apply Hpq.
    + right. exists x. split; [exact Hin|].
      rewrite Forall_forall in IH. now apply IH.
  - rewrite !orb_true_iff, !existsb_exists. intros [Hp|[x [Hin Hx]]].
    + left. now apply Hpq.
    + right. exists x. split; [exact Hin|].
      rewrite Forall_forall in IH. now apply IH.
Qed.

Lemma plain_finite w :
  plain w = true -> contains is_nonfinite_number w = false.
Proof.
  induction w as [| |b|x|z|s|c xs|c zs|l IH|ps IH] using value_tree_ind;
    simpl; intros Hp; try discriminate; try reflexivity.
  - destruct x as [[|]|[|]| |sg m e]; simpl in *; congruence.
  - destruct (existsb (contains is_nonfinite_number) l) eqn:E; [|reflexivity].
    apply existsb_exists in E. destruct E as [x [Hin Hx]].
    rewrite Forall_forall in IH. rewrite forallb_forall in Hp.
    rewrite (IH x Hin (Hp x Hin)) in Hx. discriminate.
  - apply andb_true_iff in Hp. destruct Hp as [_ Hp].
    destruct (existsb _ ps) eqn:E; [|reflexivity].
    apply existsb_exists in E. destruct E as [q [Hin Hq]].
    rewrite Forall_forall in IH. rewrite forallb_forall in Hp.
    rewrite (IH q Hin (Hp q Hin)) in Hq. discriminate.
Qed.

(* ================================================================= *)
(** ** The sanitizer *)

(** C7.  sanitizeExif is idempotent: for every metadata tree, sanitizing
    the result of sanitizeExif gives the completion of sanitizing once (the
    same value when the first application returns one, the same exception
    when it throws). *)
Theorem sanitizeExif_idempotent v :
  completion_bind (sanitizeExif v) sanitizeExif = sanitizeExif v.
Proof.
  destruct (sanitizeExif v) as [w|e] eqn:Hs; simpl; [|reflexivity].
  apply sanitizeExif_fixes_plain. exact (sanitizeExif_plain v w Hs).
Qed.

(** C4, as stated, fails: a Float64Array holding NaN and 2 under a key comes
    back as the sequence null, 2, which is not the sequence of the elements
    of the buffer. *)
Lemma nonfinite_element_becomes_null :
  sanitizeExif gps_tree
  = Normal (VObject [("GPSLatitude", VArray [VNull; VNumber (number_of_Z 2)])])
  /\ sanitizeExif gps_tree <> Normal (replaceBuffers gps_tree).
Proof.
  split; [reflexivity|]. intros H. vm_compute in H. discriminate H.
Qed.

(** C4, amended.  For every metadata tree made of null, booleans, strings,
    finite numbers other than negative zero, arrays, objects, and buffers of
    the eight handled kinds whose elements are such numbers, sanitizeExif
    returns the tree in which every buffer, at any depth, is replaced by the
    plain sequence of its elements, one entry per element in the original
    order, and the rest of the tree is unchanged. *)
Theorem sanitizeExif_replaces_buffers v :
  representable v = true ->
  sanitizeExif v = Normal (replaceBuffers v)
  /\ (forall c xs, handled c = true ->
                   replaceBuffers (VTypedArray c xs) = VArray (map VNumber xs)
                   /\ List.length (map VNumber xs) = List.length xs).
Proof.
  intros Hr. split; [now apply sanitizeExif_representable|].
  intros c xs Hc. simpl. rewrite Hc. split; [reflexivity | apply List.length_map].
Qed.

Lemma sanitizeExif_replaces_buffers_witness :
  sanitizeExif nested_tree
  = Normal
      (VObject
         [("Make", VString "Apple");
          ("MakerNote", VArray [VNumber (number_of_Z 1); VNumber (number_of_Z 2);
                                VNumber (number_of_Z 3)]);
          ("ifd1",
           VObject
             [("Thumbnail",
               VArray [VArray [VNumber (number_of_Z (-1)); VNumber (number_of_Z 0)];
                       VNull]);
              ("Flash", VBool false)])]).
Proof.
  apply (proj1 (sanitizeExif_replaces_buffers nested_tree eq_refl)).
Defined.

(** C8, as stated, fails: a tree whose exposure time is NaN is sanitized
    without failure, and the NaN comes back as null. *)
Lemma nonfinite_number_does_not_fail :
  contains is_nonfinite_number exposure_tree = true
  /\ sanitizeExif exposure_tree = Normal (VObject [("ExposureTime", VNull)]).
Proof. split; reflexivity. Qed.

(** C8, amended.  For any metadata tree holding a BigInt (a BigInt value or
    an element of a BigInt buffer) the whole sanitize operation fails with a
    TypeError.  A non-finite number does not make it fail: for a tree that
    holds no BigInt and contains a non-finite number, sanitizeExif returns a
    value that contains no non-finite number, and a non-finite number under
    a key comes back as null under that key. *)
Theorem sanitizeExif_failure_rule v :
  (contains holds_bigint v = true -> sanitizeExif v = Throw bigint_error)
  /\ (contains holds_bigint v = false ->
      contains is_nonfinite_number v = true ->
      exists w, sanitizeExif v = Normal w /\
                contains is_nonfinite_number w = false)
  /\ (forall key x, is_finite x = false ->
                    sanitizeExif (VObject [(key, VNumber x)])
                    = Normal (VObject [(key, VNull)])).
Proof.
  split; [apply sanitizeExif_throws_on_bigint | split].
  - intros Hc Hn.
    destruct (sanitizeExif_succeeds v Hc) as [w [Hw Hp]].
    + intros ->. discriminate Hn.
    + exists w. split; [exact Hw | now apply plain_finite].
  - intros key x Hx. rewrite sanitizeExif_eq. simpl. unfold number_text.
    rewrite Hx. reflexivity.
Qed.

Lemma sanitizeExif_failure_rule_witness :
  sanitizeExif bigint_tree = Throw bigint_error
  /\ exists w, sanitizeExif gps_tree = Normal w /\
               contains is_nonfinite_number w = false.
Proof.
  split.
  - apply (proj1 (sanitizeExif_failure_rule bigint_tree)). reflexivity.
  - apply (proj1 (proj2 (sanitizeExif_failure_rule gps_tree))); reflexivity.
Defined.

(* ================================================================= *)
(** ** Metadata extraction on the HEIC path *)

(** C5, on the code.  For a HEIC file whose transcoding and byte read
    succeed: when the parser returns an empty mapping the transcoded bytes
    come back with an empty exif mapping; when it returns undefined (no
    metadata) sanitizeExif throws on it and the result is the degraded one,
    with an empty jpeg; when it returns null the transcoded bytes come back
    with null as exif. *)
Theorem absent_metadata_outcomes host file tr jpegBlob buffer exifObj :
  isHeic file = true ->
  exifr_parse host file default_options = Normal exifObj ->
  heic2any host (jpeg_request file) = Normal jpegBlob ->
  arrayBuffer jpegBlob = Normal buffer ->
  (exifObj = VObject [] ->
   fst (ensureJpegBytes host file tr)
   = Normal {| jpeg := buffer; exif := VObject [] |})
  /\ (exifObj = VUndefined ->
      sanitizeExif exifObj = Throw (SyntaxError "undefined is not valid JSON")
      /\ fst (ensureJpegBytes host file tr) = Normal degraded)
  /\ (exifObj = VNull ->
      fst (ensureJpegBytes host file tr)
      = Normal {| jpeg := buffer; exif := VNull |}).
Proof.
  intros Hclass Hparse Hconv Hread.
  rewrite (heic_path host file tr Hclass), Hparse, Hconv, Hread.
  split; [|split]; intros ->; [reflexivity | split; reflexivity | reflexivity].
Qed.

(** C5 at a HEIC file without metadata: the transcoder gives three bytes,
    the caller gets none. *)
Lemma absent_metadata_outcomes_witness :
  sanitizeExif VUndefined = Throw (SyntaxError "undefined is not valid JSON")
  /\ fst (ensureJpegBytes (transcoding_host (Normal VUndefined)) img_heic [])
     = Normal {| jpeg := []; exif := VObject [] |}.
Proof.
  apply (proj1 (proj2 (absent_metadata_outcomes
                         (transcoding_host (Normal VUndefined)) img_heic []
                         {| arrayBuffer := Normal jpeg_magic |} jpeg_magic
                         VUndefined eq_refl eq_refl eq_refl eq_refl))).
  reflexivity.
Defined.

(** C6, as stated, fails: with a parser that throws and a transcoder that
    would give three bytes, the result is the degraded one, the transcoder
    is never called and no warning is logged. *)
Lemma extraction_exception_degrades :
  isHeic img_heic = true
  /\ exifr_parse (transcoding_host (Throw parser_error)) img_heic default_options
     = Throw parser_error
  /\ heic2any (transcoding_host (Throw parser_error)) (jpeg_request img_heic)
     = Normal {| arrayBuffer := Normal jpeg_magic |}
  /\ ensureJpegBytes (transcoding_host (Throw parser_error)) img_heic []
     = (Normal {| jpeg := []; exif := VObject [] |},
        extraction_events ++ [failure_logged])
  /\ existsb is_warning (extraction_events ++ [failure_logged]) = false.
Proof. repeat split. Qed.

(** C6, amended.  On the HEIC path an exception of the metadata parser is
    fatal: it is caught by the outer boundary and logged as an error, the
    transcoder is not called, and the result is the degraded one.  Only a
    falsy result that the parser returns without throwing is logged as a
    warning, after which the transcoder is called. *)
Theorem extraction_outcomes host file tr :
  isHeic file = true ->
  (forall e,
      exifr_parse host file default_options = Throw e ->
      ensureJpegBytes host file tr
      = (Normal degraded, tr ++ extraction_events ++ [failure_logged])
      /\ existsb is_library_call [failure_logged] = false
      /\ existsb is_warning (extraction_events ++ [failure_logged]) = false)
  /\ (forall exifObj,
         exifr_parse host file default_options = Normal exifObj ->
         ToBoolean exifObj = false ->
         exists rest,
           snd (ensureJpegBytes host file tr)
           = tr ++ extraction_events ++
               [console_timeEnd "exifr.parse";
                console_warn "[Warn] Exif data could not be parsed from HEIC.";
                console_time "heic2any"; call_heic2any "image/jpeg"] ++ rest).
Proof.
  intros Hclass. split.
  - intros e Hparse. rewrite (heic_path host file tr Hclass), Hparse.
    repeat split.
  - intros exifObj Hparse Hfalsy.
    rewrite (heic_path host file tr Hclass), Hparse. cbv zeta.
    unfold transcoding_events, extraction_report. rewrite Hfalsy.
    destruct (heic2any host (jpeg_request file)) as [jpegBlob|e].
    + destruct (arrayBuffer jpegBlob) as [buffer|e].
      * destruct (sanitizeExif exifObj) as [w|e]; simpl snd;
          eexists; repeat rewrite <- app_assoc; reflexivity.
      * simpl snd. eexists; repeat rewrite <- app_assoc; reflexivity.
    + simpl snd. eexists; repeat rewrite <- app_assoc; reflexivity.
Qed.

Lemma extraction_outcomes_witness :
  ensureJpegBytes (transcoding_host (Throw parser_error)) img_heic []
  = (Normal degraded, extraction_events ++ [failure_logged]).
Proof.
  apply (proj1 (proj1 (extraction_outcomes
                         (transcoding_host (Throw parser_error)) img_heic []
                         eq_refl)
                  parser_error eq_refl)).
Defined.

(* ================================================================= *)
(** ** BigInt buffers *)

(** C10, as stated, fails: an empty BigInt64Array under a key is not
    converted to a sequence, yet sanitization does not throw (it comes back
    as an empty object), and ensureJpegBytes returns the transcoded bytes
    with that metadata. *)
Lemma empty_bigint_buffer_does_not_throw :
  contains is_bigint_buffer empty_bigint_tree = true
  /\ sanitizeExif empty_bigint_tree
     = Normal (VObject [("MakerNote", VObject [])])
  /\ fst (ensureJpegBytes (transcoding_host (Normal empty_bigint_tree)) img_heic [])
     = Normal {| jpeg := jpeg_magic;
                 exif := VObject [("MakerNote", VObject [])] |}.
Proof. repeat split. Qed.

(** C10, amended.  The replacer of sanitizeExif converts the typed arrays of
    exactly eight constructors (Uint8/16/32, Int8/16/32, Float32/64) and
    leaves a BigInt64Array or BigUint64Array as it is; a metadata tree
    containing a non-empty BigInt buffer makes sanitizeExif throw a
    TypeError, so that on the HEIC path metadata containing one yields the
    degraded result, whatever the transcoder returned. *)
Theorem bigint_buffer_degrades :
  (forall key c xs,
      replacer key (VTypedArray c xs)
      = if handled c then VArray (map VNumber xs) else VTypedArray c xs)
  /\ filter handled NumberArrayConstructors
     = [Int8Array; Uint8Array; Int16Array; Uint16Array; Int32Array; Uint32Array;
        Float32Array; Float64Array]
  /\ (forall c, In c NumberArrayConstructors)
  /\ (forall key c zs, replacer key (VBigIntArray c zs) = VBigIntArray c zs)
  /\ (forall v, contains is_nonempty_bigint_buffer v = true ->
                sanitizeExif v = Throw bigint_error)
  /\ (forall host file tr exifObj,
         isHeic file = true ->
         exifr_parse host file default_options = Normal exifObj ->
         contains is_nonempty_bigint_buffer exifObj = true ->
         fst (ensureJpegBytes host file tr) = Normal degraded).
Proof.
  assert (Hthrow : forall v, contains is_nonempty_bigint_buffer v = true ->
                             sanitizeExif v = Throw bigint_error).
  { intros v Hc. apply sanitizeExif_throws_on_bigint.
    apply contains_weaken with (2 := Hc).
    intros [] Hb; try discriminate Hb. exact Hb. }
  split; [exact replacer_typed|].
  split; [reflexivity|].
  split; [intros []; simpl; tauto|].
  split; [reflexivity|].
  split; [exact Hthrow|].
  intros host file tr exifObj Hclass Hparse Hc.
  rewrite (heic_path host file tr Hclass), Hparse, (Hthrow exifObj Hc).
  cbv zeta.
  destruct (heic2any host (jpeg_request file)) as [jpegBlob|e]; [|reflexivity].
  destruct (arrayBuffer jpegBlob); reflexivity.
Qed.

Lemma bigint_buffer_degrades_witness :
  sanitizeExif bigint_tree = Throw bigint_error
  /\ fst (ensureJpegBytes (transcoding_host (Normal bigint_tree)) img_heic [])
     = Normal degraded.
Proof.
  split.
  - apply (proj1 (proj2 (proj2 (proj2 (proj2 bigint_buffer_degrades))))).
    reflexivity.
  - apply (proj2 (proj2 (proj2 (proj2 (proj2 bigint_buffer_degrades))))
             (transcoding_host (Normal bigint_tree)) img_heic [] bigint_tree);
      reflexivity.
Defined.

(* ================================================================= *)
(** * Further properties *)

(* ================================================================= *)
(** ** The recursion budget of the serialization *)

Section BudgetMonotone.

Variable R : string -> value -> value.

Lemma SerializeJSONArray_mono
  (ser ser' : string -> value -> eval (option json)) :
  (forall key v c, ser key v = Some c -> ser' key v = Some c) ->
  forall l i c,
    SerializeJSONArray ser i l = Some c -> SerializeJSONArray ser' i l = Some c.
Proof.
  intros Hser. induction l as [|x l IH]; intros i c; simpl; [trivial|].
  destruct (ser (index_key i) x) as [cx|] eqn:Hx; [|discriminate].
  rewrite (Hser _ _ _ Hx). destruct cx as [strP|e]; simpl; [|trivial].
  destruct (SerializeJSONArray ser (S i) l) as [cl|] eqn:Hl; [|discriminate].
  now rewrite (IH _ _ Hl).
Qed.

Lemma SerializeJSONObject_mono
  (ser ser' : string -> value -> eval (option json)) :
  (forall key v c, ser key v = Some c -> ser' key v = Some c) ->
  forall K c,
    SerializeJSONObject ser K = Some c -> SerializeJSONObject ser' K = Some c.
Proof.
  intros Hser. induction K as [|[P x] K IH]; intros c; simpl; [trivial|].
  destruct (ser P x) as [cx|] eqn:Hx; [|discriminate].
  rewrite (Hser _ _ _ Hx). destruct cx as [strP|e]; simpl; [|trivial].
  destruct (SerializeJSONObject ser K) as [cl|] eqn:Hl; [|discriminate].
  now rewrite (IH _ eq_refl).
Qed.

(** A budget that is enough stays enough when it grows, with the same
    completion; this holds for every replacer. *)
Lemma SerializeJSONProperty_mono n :
  forall m key v c,
    n <= m ->
    SerializeJSONProperty R n key v = Some c ->
    SerializeJSONProperty R m key v = Some c.
Proof.
  induction n as [|n IH]; intros m key v c Hle; [discriminate|].
  destruct m as [|m]; [lia|].
  assert (Hstep : forall key v c,
             SerializeJSONProperty R n key v = Some c ->
             SerializeJSONProperty R m key v = Some c).
  { intros key' v' c'. apply IH. lia. }
  cbn [SerializeJSONProperty].
  destruct (R key v) as [| |b|x|z|s|ct xs|ct zs|l|ps]; try trivial.
  - destruct (SerializeJSONObject _ (indexed (map VNumber xs))) as [cl|] eqn:Hl;
      [|discriminate].
    now rewrite (SerializeJSONObject_mono _ _ Hstep _ _ Hl).
  - destruct (SerializeJSONObject _ (indexed (map VBigInt zs))) as [cl|] eqn:Hl;
      [|discriminate].
    now rewrite (SerializeJSONObject_mono _ _ Hstep _ _ Hl).
  - destruct (SerializeJSONArray _ 0 l) as [cl|] eqn:Hl; [|discriminate].
    now rewrite (SerializeJSONArray_mono _ _ Hstep _ _ _ Hl).
  - destruct (SerializeJSONObject _ ps) as [cl|] eqn:Hl; [|discriminate].
    now rewrite (SerializeJSONObject_mono _ _ Hstep _ _ Hl).
Qed.

End BudgetMonotone.

(** X1.  The recursion of JSON.stringify under the replacer of sanitizeExif
    is bounded by the nesting depth of the metadata: every budget above the
    depth settles with the completion of sanitizeExif, and whatever budget
    settles gives that same completion. *)
Theorem sanitizeExif_budget v n :
  (depth v < n -> sanitizeExif_within n v = Some (sanitizeExif v))
  /\ (forall c, sanitizeExif_within n v = Some c -> c = sanitizeExif v).
Proof.
  split; [apply sanitizeExif_within_enough|].
  intros c Hc.
  assert (Hbig : sanitizeExif_within (n + S (depth v)) v = Some c).
  { unfold sanitizeExif_within, JSON_stringify in *.
    destruct (SerializeJSONProperty replacer n "" v) as [c0|] eqn:Hn;
      [|discriminate].
    rewrite (SerializeJSONProperty_mono replacer n (n + S (depth v)) "" v c0);
      [exact Hc | lia | exact Hn]. }
  rewrite sanitizeExif_within_enough in Hbig by lia.
  now inversion Hbig.
Qed.

Lemma sanitizeExif_budget_witness :
  sanitizeExif_within 5 nested_tree = Some (sanitizeExif nested_tree).
Proof.
  apply (proj1 (sanitizeExif_budget nested_tree 5)). vm_compute. lia.
Defined.

(* ================================================================= *)
(** ** What sanitizeExif returns *)

(** X2.  The values sanitizeExif returns are exactly the plain ones (null,
    booleans, strings, finite numbers other than negative zero, arrays and
    objects of such, with pairwise different keys): every result is plain,
    and every plain value is returned unchanged. *)
Theorem sanitizeExif_image w :
  (exists v, sanitizeExif v = Normal w) <-> plain w = true.
Proof.
  split.
  - intros [v Hv]. exact (sanitizeExif_plain v w Hv).
  - intros Hp. exists w. now apply sanitizeExif_fixes_plain.
Qed.

(** X3.  sanitizeExif returns a value exactly for the trees that are not
    undefined and hold no BigInt; it throws a SyntaxError for undefined and
    a TypeError for a tree that holds a BigInt. *)
Theorem sanitizeExif_succeeds_iff v :
  ((exists w, sanitizeExif v = Normal w) <->
   contains holds_bigint v = false /\ v <> VUndefined)
  /\ sanitizeExif VUndefined = Throw (SyntaxError "undefined is not valid JSON")
  /\ (contains holds_bigint v = true -> sanitizeExif v = Throw bigint_error).
Proof.
  split; [|split; [reflexivity | apply sanitizeExif_throws_on_bigint]].
  split.
  - intros [w Hw]. split.
    + destruct (contains holds_bigint v) eqn:Hc; [|reflexivity].
      rewrite (sanitizeExif_throws_on_bigint v Hc) in Hw. discriminate.
    + intros ->. discriminate Hw.
  - intros [Hc Hdef]. destruct (sanitizeExif_succeeds v Hc Hdef) as [w [Hw _]].
    now exists w.
Qed.

Lemma sanitizeExif_succeeds_iff_witness :
  exists w, sanitizeExif gps_tree = Normal w.
Proof.
  apply (proj2 (proj1 (sanitizeExif_succeeds_iff gps_tree))).
  split; [reflexivity | discriminate].
Defined.

Lemma object_text_skips_undefined l1 k l2 :
  object_text (l1 ++ (k, Normal None) :: l2) = object_text (l1 ++ l2).
Proof.
  induction l1 as [|[P c] l1 IH]; simpl.
  - destruct (object_text l2); reflexivity.
  - now rewrite IH.
Qed.

Lemma array_text_nulls_undefined l1 l2 :
  array_text (l1 ++ Normal None :: l2)
  = array_text (l1 ++ Normal (Some JNull) :: l2).
Proof.
  induction l1 as [|c l1 IH]; simpl; [reflexivity | now rewrite IH].
Qed.

(** X4.  A property whose value is undefined is dropped: an object with
    such a property is sanitized as the object without it (to the same
    value, or to the same exception). *)
Theorem sanitizeExif_drops_undefined_property ps key qs :
  sanitizeExif (VObject (ps ++ (key, VUndefined) :: qs))
  = sanitizeExif (VObject (ps ++ qs)).
Proof.
  rewrite !sanitizeExif_eq. cbn [serialize].
  rewrite !map_app. cbn [map fst snd serialize].
  now rewrite object_text_skips_undefined.
Qed.

(** X5.  An array element that is undefined comes back as null: the array
    is sanitized as the array with null at that index, so the indices of
    the other elements are kept. *)
Theorem sanitizeExif_nulls_undefined_element l r :
  sanitizeExif (VArray (l ++ VUndefined :: r))
  = sanitizeExif (VArray (l ++ VNull :: r)).
Proof.
  rewrite !sanitizeExif_eq. cbn [serialize].
  rewrite !map_app. cbn [map serialize].
  now rewrite array_text_nulls_undefined.
Qed.

Lemma json_value_number_text x : json_value (number_text x) = number_value x.
Proof. unfold number_text, number_value. destruct (is_finite x); reflexivity. Qed.

(** X6.  A buffer of one of the eight handled kinds, whatever its elements,
    comes back as a sequence with exactly one entry per element, in order:
    a finite element as itself (negative zero as zero), NaN and the
    infinities as null. *)
Theorem sanitizeExif_handled_buffer c xs :
  handled c = true ->
  sanitizeExif (VTypedArray c xs) = Normal (VArray (map number_value xs))
  /\ List.length (map number_value xs) = List.length xs.
Proof.
  intros Hc. split; [|apply List.length_map].
  rewrite sanitizeExif_eq. cbn [serialize]. rewrite Hc. simpl.
  rewrite map_map. do 2 f_equal. apply map_ext. apply json_value_number_text.
Qed.

Lemma sanitizeExif_handled_buffer_witness :
  sanitizeExif
    (VTypedArray Float32Array
       [S754_infinity true; S754_zero true; number_of_Z 7])
  = Normal (VArray [VNull; VNumber (S754_zero false); VNumber (number_of_Z 7)]).
Proof.
  apply (proj1 (sanitizeExif_handled_buffer Float32Array
                  [S754_infinity true; S754_zero true; number_of_Z 7] eq_refl)).
Defined.

(* ================================================================= *)
(** ** Typed arrays that the replacer does not name *)

Lemma index_key_inj i j : index_key i = index_key j -> i = j.
Proof.
  unfold index_key. intros H.
  apply (f_equal NilEmpty.uint_of_string) in H.
  rewrite !NilEmpty.usu in H. inversion H as [H'].
  now apply Stdlib.Numbers.DecimalNat.Unsigned.to_uint_inj.
Qed.

Lemma indexed_from_keys {A} (l : list A) :
  forall i k, In k (map fst (indexed_from i l)) ->
              exists j, i <= j /\ k = index_key j.
Proof.
  induction l as [|x l IH]; intros i k; simpl; [intros []|].
  intros [<-|Hin].
  - exists i. split; [lia | reflexivity].
  - destruct (IH (S i) k Hin) as [j [Hj ->]]. exists j. split; [lia | reflexivity].
Qed.

Lemma indexed_from_NoDup {A} (l : list A) :
  forall i, NoDup (map fst (indexed_from i l)).
Proof.
  induction l as [|x l IH]; intros i; simpl; constructor; [|apply IH].
  intros Hin. destruct (indexed_from_keys l (S i) _ Hin) as [j [Hj Heq]].
  apply index_key_inj in Heq. lia.
Qed.

Lemma indexed_from_map {A B} (f : A -> B) (l : list A) :
  forall i,
    map (fun m => (fst m, f (snd m))) (indexed_from i l)
    = indexed_from i (map f l).
Proof.
  induction l as [|x l IH]; intros i; simpl; [reflexivity | now rewrite IH].
Qed.

(** X7.  A typed array with Number elements whose constructor the replacer
    does not name (Uint8ClampedArray, Float16Array) is not turned into a
    sequence: it comes back as an object whose keys are the decimal indices
    0, 1, ... in order, each holding the element (null when not finite). *)
Theorem sanitizeExif_unnamed_typed_array c xs :
  handled c = false ->
  sanitizeExif (VTypedArray c xs)
  = Normal (VObject (indexed (map number_value xs))).
Proof.
  intros Hc. rewrite sanitizeExif_eq. cbn [serialize]. rewrite Hc.
  cbn [completion_bind JSON_parse json_value]. do 2 f_equal.
  unfold indexed.
  rewrite internalize_members_distinct
    by (simpl; apply indexed_from_NoDup).
  simpl. rewrite indexed_from_map, map_map. f_equal.
  apply map_ext. apply json_value_number_text.
Qed.

Lemma sanitizeExif_unnamed_typed_array_witness :
  sanitizeExif (VTypedArray Uint8ClampedArray [number_of_Z 255; number_of_Z 0])
  = Normal (VObject [("0", VNumber (number_of_Z 255));
                     ("1", VNumber (number_of_Z 0))]).
Proof.
  apply (sanitizeExif_unnamed_typed_array Uint8ClampedArray
           [number_of_Z 255; number_of_Z 0] eq_refl).
Defined.

(* ================================================================= *)
(** ** sanitizeExif on arrays and objects, from their parts *)

Lemma sanitizeExif_Normal_inv v w :
  sanitizeExif v = Normal w ->
  exists j, serialize v = Normal (Some j) /\ json_value j = w.
Proof.
  rewrite sanitizeExif_eq.
  destruct (serialize v) as [[j|]|e]; simpl; intros H; inversion H.
  now exists j.
Qed.

(** X8.  sanitizeExif works element by element on an array: when every
    element is sanitized to a value, the array is sanitized to the array of
    those values, in the same order. *)
Theorem sanitizeExif_array l ws :
  Forall2 (fun x w => sanitizeExif x = Normal w) l ws ->
  sanitizeExif (VArray l) = Normal (VArray ws).
Proof.
  intros H. rewrite sanitizeExif_eq. cbn [serialize].
  assert (Ht : exists t, array_text (map serialize l) = Normal t /\
                         map json_value t = ws).
  { induction H as [|x w l ws Hx _ [t [Ht Hm]]]; simpl.
    - now exists [].
    - destruct (sanitizeExif_Normal_inv x w Hx) as [j [Hj Hv]].
      rewrite Hj, Ht. simpl. exists (j :: t). simpl. now rewrite Hv, Hm. }
  destruct Ht as [t [Ht Hm]]. rewrite Ht. simpl. now rewrite Hm.
Qed.

Lemma sanitizeExif_array_witness :
  sanitizeExif (VArray [VTypedArray Uint16Array [number_of_Z 1]; VNumber S754_nan])
  = Normal (VArray [VArray [VNumber (number_of_Z 1)]; VNull]).
Proof.
  apply (sanitizeExif_array
           [VTypedArray Uint16Array [number_of_Z 1]; VNumber S754_nan]
           [VArray [VNumber (number_of_Z 1)]; VNull]).
  repeat constructor.
Defined.

(** X9.  sanitizeExif works property by property on an object: when the
    keys are pairwise different and every property value is sanitized to a
    value, the object is sanitized to the object with the same keys in the
    same order, holding those values. *)
Theorem sanitizeExif_object ps qs :
  distinct (map fst ps) = true ->
  Forall2 (fun p q => fst p = fst q /\ sanitizeExif (snd p) = Normal (snd q))
          ps qs ->
  sanitizeExif (VObject ps) = Normal (VObject qs).
Proof.
  intros Hd H. rewrite sanitizeExif_eq. cbn [serialize].
  assert (Ht : exists t,
             object_text (map (fun p => (fst p, serialize (snd p))) ps)
             = Normal t /\
             map fst t = map fst ps /\
             map (fun m => (fst m, json_value (snd m))) t = qs).
  { clear Hd. induction H as [|[k x] [k' w] ps qs [Hk Hx] _ [t [Ht [Hkeys Hm]]]];
      simpl in *.
    - now exists [].
    - subst k'. destruct (sanitizeExif_Normal_inv x w Hx) as [j [Hj Hv]].
      rewrite Hj, Ht. simpl. exists ((k, j) :: t). simpl.
      now rewrite Hv, Hm, Hkeys. }
  destruct Ht as [t [Ht [Hkeys Hm]]]. rewrite Ht. simpl.
  rewrite internalize_members_distinct; simpl.
  - now rewrite Hm.
  - rewrite Hkeys. now apply distinct_NoDup.
Qed.

Lemma sanitizeExif_object_witness :
  sanitizeExif (VObject [("Make", VString "Apple");
                         ("FNumber", VNumber (S754_infinity false))])
  = Normal (VObject [("Make", VString "Apple"); ("FNumber", VNull)]).
Proof.
  apply (sanitizeExif_object
           [("Make", VString "Apple"); ("FNumber", VNumber (S754_infinity false))]
           [("Make", VString "Apple"); ("FNumber", VNull)] eq_refl).
  repeat constructor.
Defined.

(* ================================================================= *)
(** ** ensureJpegBytes: the successful HEIC path, the trace *)

(** X10.  For a HEIC file whose metadata is read and sanitized and whose
    transcoding and byte read succeed, the result holds the bytes of the
    transcoded blob as they are (no rotation is applied, whatever the
    metadata says) and the sanitized metadata, which is a plain value; the
    trace gains the events of the three steps in order. *)
Theorem heic_conversion_succeeds host file tr exifObj jpegBlob buffer exifValue :
  isHeic file = true ->
  exifr_parse host file default_options = Normal exifObj ->
  heic2any host (jpeg_request file) = Normal jpegBlob ->
  arrayBuffer jpegBlob = Normal buffer ->
  sanitizeExif exifObj = Normal exifValue ->
  ensureJpegBytes host file tr
  = (Normal {| jpeg := buffer; exif := exifValue |},
     tr ++ extraction_events ++ transcoding_events exifObj
        ++ transcoded_read_events)
  /\ plain exifValue = true.
Proof.
  intros Hclass Hparse Hconv Hread Hsan. split.
  - rewrite (heic_path host file tr Hclass), Hparse, Hconv, Hread, Hsan.
    cbv zeta. now rewrite <- !app_assoc.
  - exact (sanitizeExif_plain exifObj exifValue Hsan).
Qed.

Lemma heic_conversion_succeeds_witness :
  fst (ensureJpegBytes
         (transcoding_host
            (Normal (VObject [("Orientation", VNumber (number_of_Z 6))])))
         img_heic [])
  = Normal {| jpeg := jpeg_magic;
              exif := VObject [("Orientation", VNumber (number_of_Z 6))] |}.
Proof.
  apply (f_equal fst
           (proj1 (heic_conversion_succeeds
                     (transcoding_host
                        (Normal (VObject [("Orientation", VNumber (number_of_Z 6))])))
                     img_heic []
                     (VObject [("Orientation", VNumber (number_of_Z 6))])
                     {| arrayBuffer := Normal jpeg_magic |} jpeg_magic
                     (VObject [("Orientation", VNumber (number_of_Z 6))])
                     eq_refl eq_refl eq_refl eq_refl eq_refl))).
Defined.

(** The console is only written to: the completion of ensureJpegBytes
    does not depend on the trace it starts from, and the trace it leaves is
    the starting trace followed by the events of the invocation. *)
Theorem ensureJpegBytes_extends_trace host file tr :
  ensureJpegBytes host file tr
  = (fst (ensureJpegBytes host file []), tr ++ added_events host file).
Proof.
  unfold added_events. destruct (isHeic file) eqn:Hclass.
  - rewrite !(heic_path host file) by exact Hclass.
    destruct (exifr_parse host file default_options) as [exifObj|e];
      [|reflexivity].
    cbv zeta.
    destruct (heic2any host (jpeg_request file)) as [jpegBlob|e];
      [|simpl; now rewrite <- !app_assoc].
    destruct (arrayBuffer jpegBlob) as [buffer|e];
      [|simpl; now rewrite <- !app_assoc].
    destruct (sanitizeExif exifObj); simpl; now rewrite <- !app_assoc.
  - rewrite !(passthrough_path host file) by exact Hclass.
    destruct (arrayBuffer (asBlob file)); reflexivity.
Qed.


(** X12.  An error is logged exactly when a step failed: the events of an
    invocation contain a console.error if and only if the byte read, the
    metadata extraction, the transcoding or the sanitization threw. *)
Theorem failure_logged_iff_step_fails host file :
  existsb is_failure_log (added_events host file) = true <->
  step_fails host file.
Proof.
  unfold added_events. split.
  - destruct (isHeic file) eqn:Hclass.
    + rewrite (heic_path host file [] Hclass).
      destruct (exifr_parse host file default_options) as [exifObj|e] eqn:Hparse;
        [|intros _; now apply extraction_fails with e].
      cbv zeta. unfold transcoding_events, extraction_report.
      destruct (heic2any host (jpeg_request file)) as [jpegBlob|e] eqn:Hconv;
        [|intros _; now apply transcoding_fails with e].
      destruct (arrayBuffer jpegBlob) as [buffer|e] eqn:Hread;
        [|intros _; now apply transcoded_read_fails with jpegBlob e].
      destruct (sanitizeExif exifObj) as [w|e] eqn:Hsan;
        [|intros _; now apply sanitization_fails with exifObj e].
      destruct (ToBoolean exifObj); simpl; discriminate.
    + rewrite (passthrough_path host file [] Hclass).
      destruct (arrayBuffer (asBlob file)) as [buffer|e] eqn:Hread;
        [simpl; discriminate|].
      intros _. now apply passthrough_read_fails with e.
  - intros [e Hclass Hread
           |e Hclass Hparse
           |e Hclass Hconv
           |jpegBlob e Hclass Hconv Hread
           |exifObj e Hclass Hparse Hsan].
    + now rewrite (passthrough_path host file [] Hclass), Hread.
    + now rewrite (heic_path host file [] Hclass), Hparse.
    + rewrite (heic_path host file [] Hclass), Hconv.
      destruct (exifr_parse host file default_options) as [exifObj|];
        [|reflexivity].
      cbv zeta. unfold transcoding_events, extraction_report.
      destruct (ToBoolean exifObj); reflexivity.
    + rewrite (heic_path host file [] Hclass), Hconv, Hread.
      destruct (exifr_parse host file default_options) as [exifObj|];
        [|reflexivity].
      cbv zeta. unfold transcoding_events, extraction_report.
      destruct (ToBoolean exifObj); reflexivity.
    + rewrite (heic_path host file [] Hclass), Hparse, Hsan.
      cbv zeta. unfold transcoding_events, extraction_report.
      destruct (heic2any host (jpeg_request file)) as [jpegBlob|];
        [destruct (arrayBuffer jpegBlob)|];
        destruct (ToBoolean exifObj); reflexivity.
Qed.

Lemma failure_logged_iff_step_fails_witness :
  step_fails (transcoding_host (Throw parser_error)) img_heic.
Proof.
  apply (proj1 (failure_logged_iff_step_fails
                  (transcoding_host (Throw parser_error)) img_heic)).
  reflexivity.
Defined.

(** X13.  An empty jpeg does not tell a failure from an empty input: for a
    file that is not classified as HEIC and whose read gives no bytes, the
    result equals the degraded result although no step failed and no error
    is logged. *)
Theorem empty_passthrough_equals_degraded host file tr :
  isHeic file = false ->
  arrayBuffer (asBlob file) = Normal [] ->
  fst (ensureJpegBytes host file tr) = Normal degraded
  /\ existsb is_failure_log (added_events host file) = false
  /\ ~ step_fails host file.
Proof.
  intros Hclass Hread.
  assert (Hlog : existsb is_failure_log (added_events host file) = false).
  { unfold added_events.
    now rewrite (passthrough_path host file [] Hclass), Hread. }
  split; [|split; [exact Hlog|]].
  - now rewrite (passthrough_path host file tr Hclass), Hread.
  - intros Hfail. apply failure_logged_iff_step_fails in Hfail. congruence.
Qed.

Lemma empty_passthrough_equals_degraded_witness :
  fst (ensureJpegBytes no_library
         {| name := "empty.jpg"; type := "image/jpeg";
            asBlob := {| arrayBuffer := Normal [] |} |} [])
  = Normal degraded.
Proof.
  apply (proj1 (empty_passthrough_equals_degraded no_library
                  {| name := "empty.jpg"; type := "image/jpeg";
                     asBlob := {| arrayBuffer := Normal [] |} |} []
                  eq_refl eq_refl)).
Defined.

(* ================================================================= *)
(** ** Classification by the name *)

Lemma toLowerCase_append (p q : string) :
  toLowerCase (p ++ q) = (toLowerCase p ++ toLowerCase q)%string.
Proof. induction p as [|c p IH]; simpl; [reflexivity | now rewrite IH]. Qed.

Lemma toLowerCase_length (s : string) :
  String.length (toLowerCase s) = String.length s.
Proof. induction s as [|c s IH]; simpl; [reflexivity | now rewrite IH]. Qed.

(** X14.  The extension is recognised in any capitalisation and after any
    stem: a file whose name ends with a string that lower-cases to .heic is
    classified as HEIC, whatever its declared type and its contents. *)
Theorem isHeic_any_capitalisation stem extension declared contents :
  toLowerCase extension = ".heic" ->
  isHeic {| name := (stem ++ extension)%string; type := declared;
            asBlob := contents |} = true.
Proof.
  intros Hext. unfold isHeic. simpl name.
  rewrite toLowerCase_append, Hext.
  rewrite (proj2 (JSStringFacts.endsWith_suffix _ ".heic"))
    by (now exists (toLowerCase stem)).
  apply orb_true_r.
Qed.

Lemma isHeic_any_capitalisation_witness :
  isHeic {| name := "Urlaub 2024/IMG_0042.hEiC"; type := "";
            asBlob := {| arrayBuffer := Normal [] |} |} = true.
Proof.
  apply (isHeic_any_capitalisation "Urlaub 2024/IMG_0042" ".hEiC" ""
           {| arrayBuffer := Normal [] |} eq_refl).
Defined.

(** X15.  A name shorter than the five code units of .heic never counts as
    a HEIC name: such a file is classified by its declared type alone. *)
Theorem isHeic_short_name file :
  String.length (name file) < 5 ->
  isHeic file = String.eqb (type file) "image/heic".
Proof.
  intros Hlen. unfold isHeic, endsWith.
  rewrite toLowerCase_length.
  replace (Nat.ltb (String.length (name file)) (String.length ".heic"))
    with true by (symmetry; apply Nat.ltb_lt; exact Hlen).
  apply orb_false_r.
Qed.

Lemma isHeic_short_name_witness :
  isHeic {| name := "heic"; type := "image/png";
            asBlob := {| arrayBuffer := Normal [] |} |} = false.
Proof.
  apply (isHeic_short_name
           {| name := "heic"; type := "image/png";
              asBlob := {| arrayBuffer := Normal [] |} |}).
  simpl. lia.
Defined.

(* ================================================================= *)
(** ** rotateAndConvertToJpeg *)

Lemma number_is_integer_unique x a b :
  number_is_integer x a = true -> number_is_integer x b = true -> a = b.
Proof.
  destruct x as [s|s| |s m e]; simpl; try discriminate.
  - rewrite !Z.eqb_eq. congruence.
  - destruct (0 <=? e)%Z eqn:He; rewrite !Z.eqb_eq.
    + congruence.
    + intros Ha Hb. apply Z.leb_gt in He.
      assert (Hpow : (0 < 2 ^ (- e))%Z) by (apply Z.pow_pos_nonneg; lia).
      rewrite Ha in Hb. apply Z.mul_reg_r in Hb; [exact Hb | lia].
Qed.

Lemma strict_equals_unique v a b :
  strict_equals v a = true -> strict_equals v b = true -> a = b.
Proof.
  destruct v; simpl; try discriminate. apply number_is_integer_unique.
Qed.

(** The four ways through the two tests of the orientation. *)
Lemma orientation_cases v :
  (strict_equals v 3 = true /\ strict_equals v 6 = false /\
   strict_equals v 8 = false)
  \/ (strict_equals v 3 = false /\ strict_equals v 6 = true /\
      strict_equals v 8 = false)
  \/ (strict_equals v 3 = false /\ strict_equals v 6 = false /\
      strict_equals v 8 = true)
  \/ (strict_equals v 3 = false /\ strict_equals v 6 = false /\
      strict_equals v 8 = false).
Proof.
  destruct (strict_equals v 3) eqn:H3, (strict_equals v 6) eqn:H6,
    (strict_equals v 8) eqn:H8; auto 10;
    try (pose proof (strict_equals_unique v _ _ H3 H6); discriminate);
    try (pose proof (strict_equals_unique v _ _ H3 H8); discriminate);
    try (pose proof (strict_equals_unique v _ _ H6 H8); discriminate).
Qed.

(** X16.  Reading Math.PI as an exact half turn and Math.PI / 2 as an exact
    quarter turn: for every bitmap and every orientation value, the context
    calls draw the bitmap once, by a matrix that maps the rectangle of the
    bitmap one-to-one onto the rectangle of the canvas (no part of the
    image falls outside, no part of the canvas is left over); the canvas has
    as many pixels as the bitmap; and the context is left with the identity
    matrix and nothing saved. *)
Theorem rotated_canvas_fits imageBitmap orientation :
  let canvas := rotated_canvas imageBitmap orientation in
  let w := Z.of_N (ImageBitmap.width imageBitmap) in
  let h := Z.of_N (ImageBitmap.height imageBitmap) in
  let cw := Z.of_N (Canvas.width canvas) in
  let ch := Z.of_N (Canvas.height canvas) in
  exists M,
    paint (Canvas.drawn canvas) identity [] = ([(imageBitmap, M)], (identity, []))
    /\ (forall x y, 0 <= x <= w -> 0 <= y <= h ->
                    0 <= fst (apply_affine M (x, y)) <= cw /\
                    0 <= snd (apply_affine M (x, y)) <= ch)%Z
    /\ (forall x' y', 0 <= x' <= cw -> 0 <= y' <= ch ->
                      exists x y, 0 <= x <= w /\ 0 <= y <= h /\
                                  apply_affine M (x, y) = (x', y'))%Z
    /\ (forall p q, apply_affine M p = apply_affine M q -> p = q)
    /\ (Canvas.width canvas * Canvas.height canvas
        = ImageBitmap.width imageBitmap * ImageBitmap.height imageBitmap)%N.
Proof.
  destruct imageBitmap as [bw bh].
  unfold rotated_canvas.
  destruct (orientation_cases orientation)
    as [[H3 [H6 H8]]|[[H3 [H6 H8]]|[[H3 [H6 H8]]|[H3 [H6 H8]]]]];
    rewrite H3, H6, H8; clear H3 H6 H8;
    cbn -[Z.mul Z.add Z.of_N N.mul compose].
  - exists {| m_a := -1; m_b := 0; m_c := 0; m_d := -1;
              m_e := Z.of_N bw; m_f := Z.of_N bh |}.
    split; [do 3 f_equal; unfold compose, identity, translation;
            cbn [m_a m_b m_c m_d m_e m_f]; f_equal; lia|].
    unfold apply_affine; cbn [m_a m_b m_c m_d m_e m_f fst snd].
    split; [intros x y Hx Hy; lia|]. split; [|split; [|lia]].
    + intros x' y' Hx Hy. exists (Z.of_N bw - x')%Z, (Z.of_N bh - y')%Z.
      split; [lia|]. split; [lia|]. f_equal; lia.
    + intros [p1 p2] [q1 q2] Heq.
      pose proof (f_equal fst Heq) as H1. pose proof (f_equal snd Heq) as H2.
      cbv [fst snd] in H1, H2. f_equal; lia.
  - exists {| m_a := 0; m_b := 1; m_c := -1; m_d := 0;
              m_e := Z.of_N bh; m_f := 0 |}.
    split; [do 3 f_equal; unfold compose, identity, translation;
            cbn [m_a m_b m_c m_d m_e m_f]; f_equal; lia|].
    unfold apply_affine; cbn [m_a m_b m_c m_d m_e m_f fst snd].
    split; [intros x y Hx Hy; lia|]. split; [|split; [|lia]].
    + intros x' y' Hx Hy. exists y', (Z.of_N bh - x')%Z.
      split; [lia|]. split; [lia|]. f_equal; lia.
    + intros [p1 p2] [q1 q2] Heq.
      pose proof (f_equal fst Heq) as H1. pose proof (f_equal snd Heq) as H2.
      cbv [fst snd] in H1, H2. f_equal; lia.
  - exists {| m_a := 0; m_b := -1; m_c := 1; m_d := 0;
              m_e := 0; m_f := Z.of_N bw |}.
    split; [do 3 f_equal; unfold compose, identity, translation;
            cbn [m_a m_b m_c m_d m_e m_f]; f_equal; lia|].
    unfold apply_affine; cbn [m_a m_b m_c m_d m_e m_f fst snd].
    split; [intros x y Hx Hy; lia|]. split; [|split; [|lia]].
    + intros x' y' Hx Hy. exists (Z.of_N bw - y')%Z, x'.
      split; [lia|]. split; [lia|]. f_equal; lia.
    + intros [p1 p2] [q1 q2] Heq.
      pose proof (f_equal fst Heq) as H1. pose proof (f_equal snd Heq) as H2.
      cbv [fst snd] in H1, H2. f_equal; lia.
  - exists identity.
    split; [reflexivity|].
    unfold apply_affine; cbn [identity m_a m_b m_c m_d m_e m_f fst snd].
    split; [intros x y Hx Hy; lia|]. split; [|split; [|lia]].
    + intros x' y' Hx Hy. exists x', y'.
      split; [lia|]. split; [lia|]. f_equal; lia.
    + intros [p1 p2] [q1 q2] Heq.
      pose proof (f_equal fst Heq) as H1. pose proof (f_equal snd Heq) as H2.
      cbv [fst snd] in H1, H2. f_equal; lia.
Qed.

(** X17.  An orientation that is none of the Numbers 3, 6 and 8 (a Number
    with another value, or a value that is not a Number, such as the string
    6) leaves the image as it is: the canvas takes the size of the bitmap
    and the only context calls are save, drawImage at the origin, restore. *)
Theorem rotated_canvas_plain_copy imageBitmap orientation :
  strict_equals orientation 3 = false ->
  strict_equals orientation 6 = false ->
  strict_equals orientation 8 = false ->
  rotated_canvas imageBitmap orientation
  = {| Canvas.width := ImageBitmap.width imageBitmap;
       Canvas.height := ImageBitmap.height imageBitmap;
       Canvas.drawn := [ctx_save; ctx_drawImage imageBitmap 0 0; ctx_restore] |}.
Proof.
  intros H3 H6 H8. unfold rotated_canvas. now rewrite H3, H6, H8.
Qed.

Lemma rotated_canvas_plain_copy_witness :
  rotated_canvas portrait_bitmap (VString "6")
  = {| Canvas.width := 4032; Canvas.height := 3024;
       Canvas.drawn := [ctx_save; ctx_drawImage portrait_bitmap 0 0;
                        ctx_restore] |}.
Proof.
  apply (rotated_canvas_plain_copy portrait_bitmap (VString "6")
           eq_refl eq_refl eq_refl).
Defined.



Lemma rotated_canvas_fits_witness :
  exists M,
    paint (Canvas.drawn (rotated_canvas portrait_bitmap (VNumber (number_of_Z 6))))
      identity []
    = ([(portrait_bitmap, M)], (identity, []))
    /\ apply_affine M (0, 0)%Z = (3024, 0)%Z.
Proof.
  destruct (rotated_canvas_fits portrait_bitmap (VNumber (number_of_Z 6)))
    as [M [HM _]].
  exists M. split; [exact HM|].
  vm_compute in HM. injection HM as <-. reflexivity.
Defined.

(* ================================================================= *)
(** ** ensureJpegBytes: the warning, the metadata of every result *)

(** X19.  The warning is logged exactly when the file is classified as
    HEIC and the parser returned (without throwing) a falsy value:
    undefined, null, false, zero, NaN or the empty string. *)
Theorem warning_iff_falsy_metadata host file :
  existsb is_warning (added_events host file) = true <->
  isHeic file = true /\
  exists exifObj, exifr_parse host file default_options = Normal exifObj /\
                  ToBoolean exifObj = false.
Proof.
  unfold added_events. destruct (isHeic file) eqn:Hclass.
  - rewrite (heic_path host file [] Hclass).
    destruct (exifr_parse host file default_options) as [exifObj|e] eqn:Hparse.
    + cbv zeta. unfold transcoding_events, extraction_report.
      destruct (ToBoolean exifObj) eqn:Hbool; split.
      * destruct (heic2any host (jpeg_request file)) as [jpegBlob|];
          [destruct (arrayBuffer jpegBlob);
           [destruct (sanitizeExif exifObj)|]|];
          simpl; discriminate.
      * intros [_ [v [Hv Hf]]]. inversion Hv; subst. congruence.
      * intros _. split; [reflexivity | now exists exifObj].
      * intros _.
        destruct (heic2any host (jpeg_request file)) as [jpegBlob|];
          [destruct (arrayBuffer jpegBlob);
           [destruct (sanitizeExif exifObj)|]|];
          reflexivity.
    + simpl. split; [discriminate|].
      intros [_ [v [Hv _]]]. discriminate.
  - rewrite (passthrough_path host file [] Hclass).
    destruct (arrayBuffer (asBlob file)); simpl;
      (split; [discriminate | intros [H _]; discriminate]).
Qed.

Lemma warning_iff_falsy_metadata_witness :
  existsb is_warning (added_events (transcoding_host (Normal VNull)) img_heic)
  = true.
Proof.
  apply (proj2 (warning_iff_falsy_metadata
                  (transcoding_host (Normal VNull)) img_heic)).
  split; [reflexivity|]. exists VNull. split; reflexivity.
Defined.

(** X20.  Whatever the file and the host, the exif field of the result is a
    plain value (null, booleans, strings, finite numbers, arrays and objects
    of such): no typed array, no BigInt, no undefined and no non-finite
    number reaches the caller. *)
Theorem result_metadata_is_plain host file tr result :
  fst (ensureJpegBytes host file tr) = Normal result ->
  plain (exif result) = true
  /\ contains is_nonfinite_number (exif result) = false.
Proof.
  intros Hres.
  assert (Hplain : plain (exif result) = true).
  { destruct (isHeic file) eqn:Hclass.
    - rewrite (heic_path host file tr Hclass) in Hres.
      destruct (exifr_parse host file default_options) as [exifObj|e];
        [|inversion Hres; reflexivity].
      cbv zeta in Hres.
      destruct (heic2any host (jpeg_request file)) as [jpegBlob|e];
        [|inversion Hres; reflexivity].
      destruct (arrayBuffer jpegBlob) as [buffer|e];
        [|inversion Hres; reflexivity].
      destruct (sanitizeExif exifObj) as [w|e] eqn:Hsan;
        [|inversion Hres; reflexivity].
      inversion Hres; subst. simpl.
      exact (sanitizeExif_plain exifObj w Hsan).
    - rewrite (passthrough_path host file tr Hclass) in Hres.
      destruct (arrayBuffer (asBlob file)); inversion Hres; reflexivity. }
  split; [exact Hplain | now apply plain_finite].
Qed.

Lemma result_metadata_is_plain_witness :
  plain (VObject [("GPSLatitude", VArray [VNull; VNumber (number_of_Z 2)])])
  = true.
Proof.
  apply (proj1 (result_metadata_is_plain
                  (transcoding_host (Normal gps_tree)) img_heic []
                  {| jpeg := jpeg_magic;
                     exif := VObject [("GPSLatitude",
                                       VArray [VNull; VNumber (number_of_Z 2)])] |}
                  eq_refl)).
Defined.
